(** * TaskFlow: the storage layer, the task controller and the theme

    A shallow embedding of [storage.js] (class [TaskStorage]), of the task
    controller (class [TaskManager]) and of [theme.js] (class
    [ThemeManager]), with the parts of the browser they talk to: strings,
    [JSON.stringify] / [JSON.parse], [localStorage], the clock, and the few
    DOM operations the controllers use. *)

From Stdlib Require Import ZArith NArith List Ascii String Lia.
From Stdlib Require Import DecimalString DecimalZ DecimalPos Sorted.
From stdpp Require Import gmap list.

Local Open Scope N_scope.

(** ** Strings

    A JavaScript string is a sequence of UTF-16 code units. *)

Abbreviation jsstring := (list N).

(** String literals.  The backquote stands for the double quote, so that
    texts with quotes in them (JSON, markup) can be written down. *)
Definition code_unit (a : ascii) : N :=
  if Ascii.eqb a "`"%char then 34 else N_of_ascii a.

Definition lit (s : string) : jsstring :=
  map code_unit (list_ascii_of_string s).

(** [String.prototype.trim]: strips WhiteSpace and LineTerminator code
    units from both ends. *)
Definition is_white_space (c : N) : bool :=
  (c =? 9) || (c =? 10) || (c =? 11) || (c =? 12) || (c =? 13) || (c =? 32)
  || (c =? 160) || (c =? 5760) || ((8192 <=? c) && (c <=? 8202))
  || (c =? 8232) || (c =? 8233) || (c =? 8239) || (c =? 8287)
  || (c =? 12288) || (c =? 65279).

Fixpoint trimStart (s : jsstring) : jsstring :=
  match s with
  | c :: r => if is_white_space c then trimStart r else s
  | [] => []
  end.

Definition trimEnd (s : jsstring) : jsstring := rev (trimStart (rev s)).

Definition trim (s : jsstring) : jsstring := trimEnd (trimStart s).

(** [Number.prototype.toString] on an integer-valued number below 10^21 in
    absolute value (every clock reading is one): the decimal digits, with a
    minus sign for a negative number. *)
Definition Number_toString (n : Z) : jsstring :=
  map N_of_ascii (list_ascii_of_string (NilZero.string_of_int (Z.to_int n))).

(** ** Dates

    [Date.prototype.toISOString] for a valid time value [t], in milliseconds
    since the epoch: days are turned into a civil date of the proleptic
    Gregorian calendar. *)

Fixpoint digits_aux (n : nat) (x : Z) (acc : jsstring) : jsstring :=
  match n with
  | O => acc
  | S n' => digits_aux n' (x / 10)%Z (Z.to_N (48 + x mod 10)%Z :: acc)
  end.

(** [x] written with exactly [n] decimal digits (zero padded). *)
Definition pad (n : nat) (x : Z) : jsstring := digits_aux n x [].

Definition civil_from_days (days : Z) : Z * Z * Z :=
  (let z := days + 719468 in
   let era := z / 146097 in
   let doe := z - era * 146097 in
   let yoe := (doe - doe / 1460 + doe / 36524 - doe / 146096) / 365 in
   let doy := doe - (365 * yoe + yoe / 4 - yoe / 100) in
   let mp := (5 * doy + 2) / 153 in
   let d := doy - (153 * mp + 2) / 5 + 1 in
   let m := if mp <? 10 then mp + 3 else mp - 9 in
   let y := yoe + era * 400 + (if m <=? 2 then 1 else 0) in
   (y, m, d))%Z.

Definition iso_year (y : Z) : jsstring :=
  if ((0 <=? y) && (y <=? 9999))%Z then pad 4 y
  else if (y <? 0)%Z then 45 :: pad 6 (- y)
  else 43 :: pad 6 y.

Definition toISOString (t : Z) : jsstring :=
  (let '(y, m, d) := civil_from_days (t / 86400000) in
   iso_year y ++ [45%N] ++ pad 2 m ++ [45%N] ++ pad 2 d ++ [84%N]
   ++ pad 2 (t / 3600000 mod 24) ++ [58%N] ++ pad 2 (t / 60000 mod 60)
   ++ [58%N] ++ pad 2 (t / 1000 mod 60) ++ [46%N] ++ pad 3 (t mod 1000)
   ++ [90%N])%Z.

(** ** Values

    The values that reach [JSON.stringify] or come out of [JSON.parse].
    A number is kept as its decimal literal: its binary64 value is not
    computed.  A date holds a valid time value.  An object is the list of
    its own properties in insertion order (the keys that are array indices,
    which JavaScript lists first, are not set apart). *)

Unset Elimination Schemes.
Inductive value : Type :=
| VUndefined
| VNull
| VBool (b : bool)
| VNum (literal : jsstring)
| VStr (s : jsstring)
| VDate (t : Z)
| VArr (elems : list value)
| VObj (props : list (jsstring * value)).
Set Elimination Schemes.

(** Own property lookup. *)
Fixpoint get_own (props : list (jsstring * value)) (k : jsstring) : option value :=
  match props with
  | [] => None
  | (k', v) :: rest => if decide (k' = k) then Some v else get_own rest k
  end.

(** CreateDataProperty: an existing own property keeps its place and takes
    the new value, a new one goes last. *)
Fixpoint define_own (props : list (jsstring * value)) (k : jsstring) (v : value)
  : list (jsstring * value) :=
  match props with
  | [] => [(k, v)]
  | (k', v') :: rest =>
      if decide (k' = k) then (k, v) :: rest else (k', v') :: define_own rest k v
  end.

(** Thrown exceptions. *)
Inductive exn : Type :=
| SyntaxError
| TypeError
| QuotaExceededError.

Inductive outcome (A : Type) : Type :=
| Ok (a : A)
| Throw (e : exn).
Arguments Ok {A} a.
Arguments Throw {A} e.

#[global] Instance outcome_ret : MRet outcome := fun A a => Ok a.

#[global] Instance outcome_bind : MBind outcome :=
  fun A B f m =>
    match m with
    | Ok a => f a
    | Throw e => Throw e
    end.

(** [try { body } catch (error) { handler }]. *)
Definition try_catch {A : Type} (body : outcome A) (handler : exn -> outcome A)
  : outcome A :=
  match body with
  | Ok a => Ok a
  | Throw e => handler e
  end.

(** The assignment [o[k] = v] of strict-mode code.  On an object an own
    property is overwritten; otherwise the key [__proto__] reaches the
    setter inherited from [Object.prototype], which creates no own property,
    and any other key becomes a new own property.  [null], [undefined] and
    primitives throw.  A named property stored on an array or a date is not
    seen by [JSON.stringify]; the keys that are array indices, and [length],
    are not modelled on arrays. *)
Definition assign (o : value) (k : jsstring) (v : value) : outcome value :=
  match o with
  | VObj props =>
      match get_own props k with
      | Some _ => Ok (VObj (define_own props k v))
      | None =>
          if decide (k = lit "__proto__") then Ok (VObj props)
          else Ok (VObj (define_own props k v))
      end
  | VArr elems => Ok (VArr elems)
  | VDate t => Ok (VDate t)
  | _ => Throw TypeError
  end.

(** ** JSON.stringify *)

Module JSON.

Definition hex_digit (n : N) : N := if n <? 10 then 48 + n else 87 + n.

Definition UnicodeEscape (c : N) : jsstring :=
  [92; 117; hex_digit (c / 4096 mod 16); hex_digit (c / 256 mod 16);
   hex_digit (c / 16 mod 16); hex_digit (c mod 16)].

Definition is_lead (c : N) : bool := (55296 <=? c) && (c <=? 56319).
Definition is_trail (c : N) : bool := (56320 <=? c) && (c <=? 57343).

Definition quote_unit (c : N) : jsstring :=
  if c =? 8 then [92; 98]
  else if c =? 9 then [92; 116]
  else if c =? 10 then [92; 110]
  else if c =? 12 then [92; 102]
  else if c =? 13 then [92; 114]
  else if c =? 34 then [92; 34]
  else if c =? 92 then [92; 92]
  else if (c <? 32) || is_lead c || is_trail c then UnicodeEscape c
  else [c].

(** A surrogate pair is one code point and is written as it is; a lone
    surrogate is escaped. *)
Fixpoint quote_units (s : jsstring) : jsstring :=
  match s with
  | [] => []
  | c :: r =>
      match r with
      | d :: r' =>
          if is_lead c && is_trail d then c :: d :: quote_units r'
          else quote_unit c ++ quote_units r
      | [] => quote_unit c
      end
  end.

Definition QuoteJSONString (s : jsstring) : jsstring :=
  34 :: quote_units s ++ [34].

Fixpoint join_comma (parts : list jsstring) : jsstring :=
  match parts with
  | [] => []
  | [p] => p
  | p :: rest => p ++ 44 :: join_comma rest
  end.

(** SerializeJSONProperty; [None] is the result [undefined]. *)
Fixpoint serialize (v : value) : option jsstring :=
  match v with
  | VUndefined => None
  | VNull => Some (lit "null")
  | VBool true => Some (lit "true")
  | VBool false => Some (lit "false")
  | VNum literal => Some literal
  | VStr s => Some (QuoteJSONString s)
  | VDate t => Some (QuoteJSONString (toISOString t))
  | VArr elems =>
      Some (91 :: join_comma
                    (map (fun e => match serialize e with
                                   | Some t => t
                                   | None => lit "null"
                                   end) elems) ++ [93])
  | VObj props =>
      Some (123 :: join_comma
                     (flat_map (fun p => match serialize (snd p) with
                                         | Some t => [QuoteJSONString (fst p) ++ 58 :: t]
                                         | None => []
                                         end) props) ++ [125])
  end.

Definition stringify (v : value) : option jsstring := serialize v.

(** ** JSON.parse *)

Definition is_ws (c : N) : bool :=
  (c =? 32) || (c =? 9) || (c =? 10) || (c =? 13).

Fixpoint skip_ws (s : jsstring) : jsstring :=
  match s with
  | c :: r => if is_ws c then skip_ws r else s
  | [] => []
  end.

Definition hex_value (c : N) : option N :=
  if (48 <=? c) && (c <=? 57) then Some (c - 48)
  else if (97 <=? c) && (c <=? 102) then Some (c - 87)
  else if (65 <=? c) && (c <=? 70) then Some (c - 55)
  else None.

Definition simple_escape (c : N) : option N :=
  if c =? 34 then Some 34
  else if c =? 92 then Some 92
  else if c =? 47 then Some 47
  else if c =? 98 then Some 8
  else if c =? 102 then Some 12
  else if c =? 110 then Some 10
  else if c =? 114 then Some 13
  else if c =? 116 then Some 9
  else None.

(** The characters of a string literal, after its opening quote: the string
    and what follows the closing quote. *)
Fixpoint parse_chars (s : jsstring) : option (jsstring * jsstring) :=
  match s with
  | [] => None
  | c :: r =>
      if c =? 34 then Some ([], r)
      else if c =? 92 then
        match r with
        | [] => None
        | e :: r1 =>
            if e =? 117 then
              match r1 with
              | h1 :: h2 :: h3 :: h4 :: r2 =>
                  match hex_value h1, hex_value h2, hex_value h3, hex_value h4 with
                  | Some a, Some b, Some c', Some d =>
                      match parse_chars r2 with
                      | Some (str, rest) =>
                          Some (a * 4096 + b * 256 + c' * 16 + d :: str, rest)
                      | None => None
                      end
                  | _, _, _, _ => None
                  end
              | _ => None
              end
            else
              match simple_escape e with
              | Some u =>
                  match parse_chars r1 with
                  | Some (str, rest) => Some (u :: str, rest)
                  | None => None
                  end
              | None => None
              end
        end
      else if c <? 32 then None
      else
        match parse_chars r with
        | Some (str, rest) => Some (c :: str, rest)
        | None => None
        end
  end.

Definition is_digit (c : N) : bool := (48 <=? c) && (c <=? 57).

Fixpoint span_digits (s : jsstring) : jsstring * jsstring :=
  match s with
  | c :: r =>
      if is_digit c then let '(ds, rest) := span_digits r in (c :: ds, rest)
      else ([], s)
  | [] => ([], [])
  end.

(** A number literal: an optional minus sign, an integer part (a single 0,
    or digits that start with 1 to 9), an optional fraction (a dot and at
    least one digit) and an optional exponent (e or E, an optional sign and
    at least one digit). *)
Definition parse_int (s : jsstring) : option (jsstring * jsstring) :=
  match s with
  | c :: r =>
      if c =? 48 then Some ([48], r)
      else if is_digit c then Some (span_digits s)
      else None
  | [] => None
  end.

Definition parse_frac (s : jsstring) : option (jsstring * jsstring) :=
  match s with
  | c :: r =>
      if c =? 46 then
        match span_digits r with
        | ([], _) => None
        | (ds, rest) => Some (c :: ds, rest)
        end
      else Some ([], s)
  | [] => Some ([], s)
  end.

Definition parse_exp (s : jsstring) : option (jsstring * jsstring) :=
  match s with
  | c :: r =>
      if (c =? 101) || (c =? 69) then
        let '(sign, r1) :=
          match r with
          | d :: r' => if (d =? 43) || (d =? 45) then ([d], r') else ([], r)
          | [] => ([], r)
          end in
        match span_digits r1 with
        | ([], _) => None
        | (ds, rest) => Some (c :: sign ++ ds, rest)
        end
      else Some ([], s)
  | [] => Some ([], s)
  end.

Definition parse_number (s : jsstring) : option (jsstring * jsstring) :=
  let '(sign, s1) :=
    match s with
    | c :: r => if c =? 45 then ([c], r) else ([], s)
    | [] => ([], s)
    end in
  match parse_int s1 with
  | Some (i, s2) =>
      match parse_frac s2 with
      | Some (f, s3) =>
          match parse_exp s3 with
          | Some (e, s4) => Some (sign ++ i ++ f ++ e, s4)
          | None => None
          end
      | None => None
      end
  | None => None
  end.

(** [strip_prefix p s]: what follows [p] in [s], if [s] starts with [p]. *)
Fixpoint strip_prefix (p s : jsstring) : option jsstring :=
  match p, s with
  | [], _ => Some s
  | a :: p', b :: s' => if a =? b then strip_prefix p' s' else None
  | _ :: _, [] => None
  end.

Definition build_object (members : list (jsstring * value)) : value :=
  VObj (fold_left (fun props m => define_own props (fst m) (snd m)) members []).

(** [expect c s]: what follows the character [c] in [s], after white space,
    if that is the next character. *)
Definition expect (c : N) (s : jsstring) : option jsstring :=
  match skip_ws s with
  | c' :: r => if c' =? c then Some r else None
  | [] => None
  end.

(** Recursive descent; [fuel] bounds the nesting and the number of
    elements, and [parse] below gives enough of it for any text. *)
Fixpoint parse_value (fuel : nat) (s : jsstring) {struct fuel}
  : option (value * jsstring) :=
  match fuel with
  | O => None
  | S fuel =>
      match skip_ws s with
      | [] => None
      | c :: r =>
          if c =? 123 then
            match expect 125 r with
            | Some r' => Some (VObj [], r')
            | None =>
                match parse_members fuel r with
                | Some (ms, r') => Some (build_object ms, r')
                | None => None
                end
            end
          else if c =? 91 then
            match expect 93 r with
            | Some r' => Some (VArr [], r')
            | None =>
                match parse_elements fuel r with
                | Some (vs, r') => Some (VArr vs, r')
                | None => None
                end
            end
          else if c =? 34 then
            match parse_chars r with
            | Some (str, r') => Some (VStr str, r')
            | None => None
            end
          else if c =? 116 then
            match strip_prefix (lit "rue") r with
            | Some r' => Some (VBool true, r')
            | None => None
            end
          else if c =? 102 then
            match strip_prefix (lit "alse") r with
            | Some r' => Some (VBool false, r')
            | None => None
            end
          else if c =? 110 then
            match strip_prefix (lit "ull") r with
            | Some r' => Some (VNull, r')
            | None => None
            end
          else
            match parse_number (c :: r) with
            | Some (literal, r') => Some (VNum literal, r')
            | None => None
            end
      end
  end
with parse_elements (fuel : nat) (s : jsstring) {struct fuel}
  : option (list value * jsstring) :=
  match fuel with
  | O => None
  | S fuel =>
      match parse_value fuel s with
      | Some (v, r) =>
          match expect 44 r with
          | Some r' =>
              match parse_elements fuel r' with
              | Some (vs, r'') => Some (v :: vs, r'')
              | None => None
              end
          | None =>
              match expect 93 r with
              | Some r' => Some ([v], r')
              | None => None
              end
          end
      | None => None
      end
  end
with parse_members (fuel : nat) (s : jsstring) {struct fuel}
  : option (list (jsstring * value) * jsstring) :=
  match fuel with
  | O => None
  | S fuel =>
      match expect 34 s with
      | Some r =>
          match parse_chars r with
          | Some (k, r1) =>
              match expect 58 r1 with
              | Some r2 =>
                  match parse_value fuel r2 with
                  | Some (v, r3) =>
                      match expect 44 r3 with
                      | Some r4 =>
                          match parse_members fuel r4 with
                          | Some (ms, r5) => Some ((k, v) :: ms, r5)
                          | None => None
                          end
                      | None =>
                          match expect 125 r3 with
                          | Some r4 => Some ([(k, v)], r4)
                          | None => None
                          end
                      end
                  | None => None
                  end
              | None => None
              end
          | None => None
          end
      | None => None
      end
  end.

(** [JSON.parse text]; [None] is a thrown [SyntaxError]. *)
Definition parse (text : jsstring) : option value :=
  match parse_value (2 * length text + 1) text with
  | Some (v, rest) =>
      match skip_ws rest with
      | [] => Some v
      | _ :: _ => None
      end
  | None => None
  end.

(** The values [JSON.stringify] and [JSON.parse] carry over as they are:
    [null], booleans, strings, and arrays and objects of such. *)
Fixpoint exact (v : value) : bool :=
  match v with
  | VNull | VBool _ | VStr _ => true
  | VArr elems => forallb exact elems
  | VObj props =>
      forallb (fun p => exact (snd p)) props
      && bool_decide (NoDup (map fst props))
  | VUndefined | VNum _ | VDate _ => false
  end.

(** *** Notions for the proofs about reading *)

(** A character in front of the string a parse returned. *)
Definition cons_result (c : N) (res : option (jsstring * jsstring))
  : option (jsstring * jsstring) :=
  match res with
  | Some (str, rest) => Some (c :: str, rest)
  | None => None
  end.

(** The characters a value can start with in what [serialize] writes. *)
Definition value_start (c : N) : Prop :=
  c = 110 \/ c = 116 \/ c = 102 \/ c = 34 \/ c = 91 \/ c = 123.

(** [reads v text]: [text] is what [v] is written as, and reading it
    gives [v] back, whatever follows. *)
Definition reads (v : value) (text : jsstring) : Prop :=
  serialize v = Some text /\
  (exists c r, text = c :: r /\ value_start c) /\
  forall fuel rest, (2 * length text + 1 <= fuel)%nat ->
    parse_value fuel (text ++ rest) = Some (v, rest).

(** A member of an object as it is written. *)
Definition member_text (p : jsstring * value) (t : jsstring) : jsstring :=
  QuoteJSONString (fst p) ++ 58 :: t.

End JSON.

(** ** localStorage

    The key-value store of the page.  A write that would take the stored
    text beyond the quota of the store throws [QuotaExceededError] and
    stores nothing. *)

Record Storage : Type := {
  items : gmap jsstring jsstring;
  quota : N
}.

Definition storage_size (m : gmap jsstring jsstring) : N :=
  map_fold (fun k v acc => N.of_nat (length k) + N.of_nat (length v) + acc) 0 m.

Definition getItem (ls : Storage) (key : jsstring) : option jsstring :=
  items ls !! key.

Definition setItem (ls : Storage) (key text : jsstring) : outcome Storage :=
  let m := <[key := text]> (items ls) in
  if storage_size m <=? quota ls
  then Ok {| items := m; quota := quota ls |}
  else Throw QuotaExceededError.

(** ToString of the result of [JSON.stringify], as [setItem] applies it. *)
Definition ToString (text : option jsstring) : jsstring :=
  match text with
  | Some t => t
  | None => lit "undefined"
  end.

(** The test [text ? ... : ...] on what [getItem] returned: [null] and the
    empty string are falsy. *)
Definition truthy_text (text : option jsstring) : bool :=
  match text with
  | Some (_ :: _) => true
  | _ => false
  end.

Definition JSON_parse (text : jsstring) : outcome value :=
  match JSON.parse text with
  | Some v => Ok v
  | None => Throw SyntaxError
  end.

(** ** storage.js: class TaskStorage

    Each method takes the store and, when it writes, returns the new one.
    [console.error] in the [catch] blocks has no effect on the store and is
    left out. *)

Module TaskStorage.

Definition storageKey : jsstring := lit "taskflow_tasks".
Definition preferenceKey : jsstring := lit "taskflow_preferences".

Definition getTasks (ls : Storage) : outcome value :=
  let tasksJSON := getItem ls storageKey in
  if truthy_text tasksJSON then JSON_parse (ToString tasksJSON) else Ok (VArr []).

Definition saveTasks (ls : Storage) (tasks : value) : outcome (Storage * bool) :=
  try_catch
    (ls' ← setItem ls storageKey (ToString (JSON.stringify tasks));
     Ok (ls', true))
    (fun error => Ok (ls, false)).

Definition getPreferences (ls : Storage) : outcome value :=
  try_catch
    (let preferencesJSON := getItem ls preferenceKey in
     if truthy_text preferencesJSON then JSON_parse (ToString preferencesJSON)
     else Ok (VObj [(lit "darkMode", VBool true);
                    (lit "accentColor", VStr (lit "lilac"));
                    (lit "hideCompleted", VBool false)]))
    (fun error =>
       Ok (VObj [(lit "darkMode", VBool true);
                 (lit "accentColor", VStr (lit "lilac"));
                 (lit "hideCompleted", VBool false)])).

Definition savePreferences (ls : Storage) (preferences : value)
  : outcome (Storage * bool) :=
  try_catch
    (ls' ← setItem ls preferenceKey (ToString (JSON.stringify preferences));
     Ok (ls', true))
    (fun error => Ok (ls, false)).

Definition updatePreference (ls : Storage) (key : jsstring) (v : value)
  : outcome (Storage * bool) :=
  preferences ← getPreferences ls;
  preferences ← assign preferences key v;
  savePreferences ls preferences.

End TaskStorage.

(** ** Tasks *)

(** [createdAt] is a [Date] object on a task made by [createTask], and a
    string on a task that came back from the store. *)
Inductive Timestamp : Type :=
| DateObject (t : Z)
| DateString (s : jsstring).

Record Task : Type := {
  id : jsstring;
  title : jsstring;
  description : jsstring;
  completed : bool;
  createdAt : Timestamp
}.

Definition value_of_timestamp (ts : Timestamp) : value :=
  match ts with
  | DateObject t => VDate t
  | DateString s => VStr s
  end.

(** The object a task is, with its properties in the order [createTask]
    writes them. *)
Definition value_of_task (task : Task) : value :=
  VObj [(lit "id", VStr (id task));
        (lit "title", VStr (title task));
        (lit "description", VStr (description task));
        (lit "completed", VBool (completed task));
        (lit "createdAt", value_of_timestamp (createdAt task))].

Definition value_of_tasks (tasks : list Task) : value :=
  VArr (map value_of_task tasks).

(** ** The page

    The rendered list items, the notification banner and the pending
    timers.  A list item carries its class tokens, its [data-id] and the
    markup assigned to [innerHTML]; its two listeners call
    [toggleTaskCompletion] and [deleteTask] with the task's id. *)

Record TaskElement : Type := {
  classList : list jsstring;
  dataset_id : jsstring;
  innerHTML : jsstring
}.

Inductive Callback : Type :=
| RemoveTask (taskId : jsstring)
| RenderTasks
| HideNotification.

Record State : Type := {
  tasks : list Task;
  currentFilter : jsstring;
  hideCompletedToggle_checked : bool;
  taskList : list TaskElement;
  emptyState_hidden : bool;
  notificationText : jsstring;
  notification_show : bool;
  timers : list (N * Callback);
  localStorage : Storage
}.

Definition with_tasks (st : State) (ts : list Task) : State :=
  {| tasks := ts; currentFilter := currentFilter st;
     hideCompletedToggle_checked := hideCompletedToggle_checked st;
     taskList := taskList st; emptyState_hidden := emptyState_hidden st;
     notificationText := notificationText st;
     notification_show := notification_show st;
     timers := timers st; localStorage := localStorage st |}.

Definition with_currentFilter (st : State) (f : jsstring) : State :=
  {| tasks := tasks st; currentFilter := f;
     hideCompletedToggle_checked := hideCompletedToggle_checked st;
     taskList := taskList st; emptyState_hidden := emptyState_hidden st;
     notificationText := notificationText st;
     notification_show := notification_show st;
     timers := timers st; localStorage := localStorage st |}.

Definition with_checked (st : State) (b : bool) : State :=
  {| tasks := tasks st; currentFilter := currentFilter st;
     hideCompletedToggle_checked := b;
     taskList := taskList st; emptyState_hidden := emptyState_hidden st;
     notificationText := notificationText st;
     notification_show := notification_show st;
     timers := timers st; localStorage := localStorage st |}.

Definition with_taskList (st : State) (els : list TaskElement) (hidden : bool) : State :=
  {| tasks := tasks st; currentFilter := currentFilter st;
     hideCompletedToggle_checked := hideCompletedToggle_checked st;
     taskList := els; emptyState_hidden := hidden;
     notificationText := notificationText st;
     notification_show := notification_show st;
     timers := timers st; localStorage := localStorage st |}.

Definition with_notification (st : State) (text : jsstring) (show : bool) : State :=
  {| tasks := tasks st; currentFilter := currentFilter st;
     hideCompletedToggle_checked := hideCompletedToggle_checked st;
     taskList := taskList st; emptyState_hidden := emptyState_hidden st;
     notificationText := text; notification_show := show;
     timers := timers st; localStorage := localStorage st |}.

Definition with_timers (st : State) (tm : list (N * Callback)) : State :=
  {| tasks := tasks st; currentFilter := currentFilter st;
     hideCompletedToggle_checked := hideCompletedToggle_checked st;
     taskList := taskList st; emptyState_hidden := emptyState_hidden st;
     notificationText := notificationText st;
     notification_show := notification_show st;
     timers := tm; localStorage := localStorage st |}.

Definition with_localStorage (st : State) (ls : Storage) : State :=
  {| tasks := tasks st; currentFilter := currentFilter st;
     hideCompletedToggle_checked := hideCompletedToggle_checked st;
     taskList := taskList st; emptyState_hidden := emptyState_hidden st;
     notificationText := notificationText st;
     notification_show := notification_show st;
     timers := timers st; localStorage := ls |}.

(** [setTimeout(callback, delay)]. *)
Definition setTimeout (st : State) (callback : Callback) (delay : N) : State :=
  with_timers st (timers st ++ [(delay, callback)]).

(** ** The DOM operations of the controller *)

(** [div.textContent = text; div.innerHTML]: the serialization of a text
    node escapes the ampersand, the no-break space and the two angle
    brackets, and nothing else. *)
Definition escape_unit (c : N) : jsstring :=
  if c =? 38 then lit "&amp;"
  else if c =? 160 then lit "&nbsp;"
  else if c =? 60 then lit "&lt;"
  else if c =? 62 then lit "&gt;"
  else [c].

(** [document.querySelector(selector)].  The rendered list items are the
    only elements of class [task-item] on the page.  Two shapes of text are
    read here.  The text the controller writes for an id whose code units
    all stand for themselves in a CSS string, [.task-item[data-id=`...`]],
    is the test of that class and of that attribute value: the call returns
    the first list item that passes it, or [null].  A text in which the
    quote that closes the attribute value is directly followed by another
    quote, as in [.task-item[data-id=```]], puts a second string into the
    attribute test: it is no selector, and the call throws [SyntaxError].
    What any other text means (one with an escape, a surrogate, a line
    break or NUL in the string, or with more after the attribute value) is
    the engine's to say and is not worked out here: the engine's answer is
    an argument, as the clock reading is for [createTask], and it may be
    anything the call can do, throw, return [null], or return an element,
    a list item or some other element of the page. *)

(** The code units that stand for themselves in a CSS string.  The quote
    ends the string, the backslash starts an escape, a line break ends the
    string in error, and NUL and the surrogates are replaced or paired by
    the tokenizer. *)
Definition css_string_unit (c : N) : bool :=
  negb ((c =? 0) || (c =? 10) || (c =? 12) || (c =? 13) || (c =? 34)
        || (c =? 92) || ((55296 <=? c) && (c <=? 57343))).

(** A string of such code units up to its closing quote, and what follows
    the quote; [None] when another code unit comes first, or no quote. *)
Fixpoint css_string (s : jsstring) : option (jsstring * jsstring) :=
  match s with
  | [] => None
  | c :: r =>
      if c =? 34 then Some ([], r)
      else if css_string_unit c then
        match css_string r with
        | Some (str, rest) => Some (c :: str, rest)
        | None => None
        end
      else None
  end.

Inductive Selector : Type :=
| AttributeTest (v : jsstring)
| NoSelector
| NotRead.

Definition parse_selector (selector : jsstring) : Selector :=
  match JSON.strip_prefix (lit ".task-item[data-id=`") selector with
  | Some r =>
      match css_string r with
      | Some (v, rest) =>
          if decide (rest = lit "]") then AttributeTest v
          else match rest with
               | c :: _ => if c =? 34 then NoSelector else NotRead
               | [] => NotRead
               end
      | None => NotRead
      end
  | None => NotRead
  end.

Definition matches (v : jsstring) (el : TaskElement) : Prop :=
  lit "task-item" ∈ classList el ∧ dataset_id el = v.

#[global] Instance matches_dec v el : Decision (matches v el).
Proof. unfold matches. apply _. Defined.

(** The element a call returns: a list item, by its index in document
    order, or an element of the page that is not a list item. *)
Inductive Element : Type :=
| ListItem (i : nat)
| OtherElement.

(** What the engine does with a text that is not read here. *)
Inductive Engine : Type :=
| Rejects
| Returns (element : option Element).

Definition querySelector (doc : list TaskElement) (selector : jsstring)
    (engine : Engine) : outcome (option Element) :=
  match parse_selector selector with
  | AttributeTest v =>
      Ok ((fun found => ListItem (fst found)) <$> list_find (matches v) doc)
  | NoSelector => Throw SyntaxError
  | NotRead =>
      match engine with
      | Rejects => Throw SyntaxError
      | Returns element => Ok element
      end
  end.

(** [element.classList.add(token)]. *)
Definition classList_add (token : jsstring) (el : TaskElement) : TaskElement :=
  {| classList := if decide (token ∈ classList el) then classList el
                  else classList el ++ [token];
     dataset_id := dataset_id el;
     innerHTML := innerHTML el |}.

(** ** What the constructors read from the store

    [o.k] for one of the keys [darkMode], [accentColor] and [hideCompleted],
    which no prototype, string or array defines: the own property of an
    object, [undefined] on any other value, and a [TypeError] on [null] and
    [undefined]. *)
Definition get_property (o : value) (k : jsstring) : outcome value :=
  match o with
  | VUndefined | VNull => Throw TypeError
  | VObj props =>
      match get_own props k with
      | Some v => Ok v
      | None => Ok VUndefined
      end
  | _ => Ok VUndefined
  end.

(** ToBoolean, as a condition and the [checked] attribute apply it.
    Whether a number is zero depends on its binary64 value, which is not
    computed: [None]. *)
Definition ToBoolean (v : value) : option bool :=
  match v with
  | VUndefined | VNull => Some false
  | VBool b => Some b
  | VNum _ => None
  | VStr [] => Some false
  | VStr (_ :: _) => Some true
  | VDate _ | VArr _ | VObj _ => Some true
  end.

(** The typed task that a value out of the store is: an object with the
    five properties of a task in the order [createTask] writes them, four
    strings and a boolean.  Other values are no [Task] of this model. *)
Definition task_of_value (v : value) : option Task :=
  match v with
  | VObj [(k1, VStr i); (k2, VStr t); (k3, VStr d); (k4, VBool c); (k5, VStr s)] =>
      if decide ([k1; k2; k3; k4; k5] =
                 [lit "id"; lit "title"; lit "description"; lit "completed";
                  lit "createdAt"])
      then Some {| id := i; title := t; description := d; completed := c;
                   createdAt := DateString s |}
      else None
  | _ => None
  end.

Definition tasks_of_value (v : value) : option (list Task) :=
  match v with
  | VArr elems => mapM task_of_value elems
  | _ => None
  end.

(** ** The task controller: class TaskManager *)

Module TaskManager.

Definition saveTasks (st : State) : outcome State :=
  result ← TaskStorage.saveTasks (localStorage st) (value_of_tasks (tasks st));
  Ok (with_localStorage st (fst result)).

Definition filterTasks (st : State) : list Task :=
  if decide (currentFilter st = lit "active") then
    List.filter (fun task => negb (completed task)) (tasks st)
  else if decide (currentFilter st = lit "completed") then
    List.filter (fun task => completed task) (tasks st)
  else if hideCompletedToggle_checked st then
    List.filter (fun task => negb (completed task)) (tasks st)
  else tasks st.

Definition escapeHtml (text : jsstring) : jsstring :=
  flat_map escape_unit text.

Definition createTaskElement (task : Task) : TaskElement :=
  {| classList :=
       if completed task then [lit "task-item"; lit "completed"]
       else [lit "task-item"];
     dataset_id := id task;
     innerHTML :=
       lit "
      <label class=`task-checkbox`>
        <input type=`checkbox` "
       ++ (if completed task then lit "checked" else [])
       ++ lit ">
        <span class=`custom-checkbox`>
          <i class=`fas fa-check`></i>
        </span>
      </label>
      <div class=`task-content`>
        <div class=`task-header`>
          <h3 class=`task-title`>"
       ++ escapeHtml (title task)
       ++ lit "</h3>
          <div class=`task-actions`>
            <button class=`delete-btn` aria-label=`Delete task`>
              <i class=`fas fa-trash`></i>
            </button>
          </div>
        </div>
        "
       ++ (match description task with
           | [] => []
           | _ :: _ =>
               lit "<p class=`task-description`>"
               ++ escapeHtml (description task) ++ lit "</p>"
           end)
       ++ lit "
      </div>
    " |}.

Definition renderTasks (st : State) : State :=
  let filteredTasks := filterTasks st in
  with_taskList st (map createTaskElement filteredTasks)
    (negb (length filteredTasks =? 0)%nat).

Definition showNotification (st : State) (message : jsstring) : State :=
  setTimeout (with_notification st message true) HideNotification 3000.

(** [now] is the reading [Date.now()] returns and [date] the time value of
    [new Date()]. *)
Definition createTask (st : State) (title description : jsstring) (now date : Z)
  : outcome State :=
  let newTask :=
    {| id := Number_toString now;
       title := trim title;
       description := trim description;
       completed := false;
       createdAt := DateObject date |} in
  let st := with_tasks st (newTask :: tasks st) in
  st ← saveTasks st;
  let st := renderTasks st in
  Ok (showNotification st (lit "Task added successfully!")).

Definition toggled (task : Task) : Task :=
  {| id := id task; title := title task; description := description task;
     completed := negb (completed task); createdAt := createdAt task |}.

Definition toggleTaskCompletion (st : State) (taskId : jsstring) : outcome State :=
  match list_find (fun task => id task = taskId) (tasks st) with
  | Some (taskIndex, task) =>
      let st := with_tasks st (<[taskIndex := toggled task]> (tasks st)) in
      st ← saveTasks st;
      let st := setTimeout st RenderTasks 500 in
      let status :=
        if completed (toggled task) then lit "completed" else lit "active" in
      Ok (showNotification st (lit "Task marked as " ++ status ++ lit "!"))
  | None => Ok st
  end.

(** [engine] is what the selector engine answers when the selector text
    is not one that [querySelector] reads.  The class that an element other
    than a list item gets is not part of the state. *)
Definition deleteTask (st : State) (taskId : jsstring) (engine : Engine)
  : outcome State :=
  taskElement ← querySelector (taskList st)
                  (lit ".task-item[data-id=`" ++ taskId ++ lit "`]") engine;
  match taskElement with
  | Some element =>
      let st :=
        match element with
        | ListItem i =>
            with_taskList st
              (list_alter (classList_add (lit "removing")) i (taskList st))
              (emptyState_hidden st)
        | OtherElement => st
        end in
      let st := setTimeout st (RemoveTask taskId) 300 in
      Ok (showNotification st (lit "Task deleted!"))
  | None => Ok st
  end.

(** The filter buttons that [updateFilterButtons] marks are not part of the
    state. *)
Definition setFilter (st : State) (filter : jsstring) : State :=
  renderTasks (with_currentFilter st filter).

(** The change listener of the hide-completed toggle, which the browser has
    already set to [checked]. *)
Definition hideCompletedChanged (st : State) (checked : bool) : outcome State :=
  let st := with_checked st checked in
  result ← TaskStorage.updatePreference (localStorage st) (lit "hideCompleted")
             (VBool checked);
  Ok (renderTasks (with_localStorage st (fst result))).

(** What a timer does when it fires. *)
Definition run_callback (st : State) (callback : Callback) : outcome State :=
  match callback with
  | RemoveTask taskId =>
      let st :=
        with_tasks st
          (List.filter (fun task => negb (bool_decide (id task = taskId)))
             (tasks st)) in
      st ← saveTasks st;
      Ok (renderTasks st)
  | RenderTasks => Ok (renderTasks st)
  | HideNotification =>
      Ok (with_notification st (notificationText st) false)
  end.

(** [loadTasks], [loadPreferences] and the constructor, which starts from
    the page as the markup gives it.  The state holds typed tasks: a run in
    which [getTasks] returns something other than an array of tasks as
    [createTask] writes them, or in which the stored [hideCompleted] is a
    number, is not followed, and the result is [None].  The listeners that
    [setupEventListeners] attaches are [handle] below. *)
Definition loadTasks (st : State) : option (outcome State) :=
  match TaskStorage.getTasks (localStorage st) with
  | Ok v => (fun ts => Ok (with_tasks st ts)) <$> tasks_of_value v
  | Throw e => Some (Throw e)
  end.

Definition loadPreferences (st : State) : option (outcome State) :=
  match (preferences ← TaskStorage.getPreferences (localStorage st);
         get_property preferences (lit "hideCompleted")) with
  | Ok hideCompleted =>
      (fun checked =>
         let st := with_checked st checked in
         Ok (if checked then with_currentFilter st (lit "active") else st))
      <$> ToBoolean hideCompleted
  | Throw e => Some (Throw e)
  end.

Definition constructor (page : State) : option (outcome State) :=
  let st := with_currentFilter (with_tasks page []) (lit "all") in
  match loadTasks st with
  | Some (Ok st) =>
      match loadPreferences st with
      | Some (Ok st) => Some (Ok (renderTasks st))
      | r => r
      end
  | r => r
  end.

End TaskManager.

(** ** Events

    What happens to the page: a form submission, a click on a checkbox, on
    a delete button or on a filter button, a change of the hide-completed
    toggle, and a pending timer that fires (any of them may: the delays are
    kept but time is not modelled).  A submission comes with what the
    clock reads, a click on a delete button with what the selector engine
    answers.  An exception that leaves a listener or a timer callback ends
    it: what it had done until then stays, and the listeners here throw
    before they change anything but the toggle. *)

Inductive Event : Type :=
| Submit (title description : jsstring) (now date : Z)
| ClickCheckbox (taskId : jsstring)
| ClickDelete (taskId : jsstring) (engine : Engine)
| ClickFilter (filter : jsstring)
| ChangeHideCompleted (checked : bool)
| TimerFires (n : nat).

Definition settle (st : State) (result : outcome State) : State :=
  match result with
  | Ok st' => st'
  | Throw _ => st
  end.

Definition handle (st : State) (e : Event) : State :=
  match e with
  | Submit title description now date =>
      match trim title with
      | [] => st
      | _ :: _ => settle st (TaskManager.createTask st title description now date)
      end
  | ClickCheckbox taskId => settle st (TaskManager.toggleTaskCompletion st taskId)
  | ClickDelete taskId engine =>
      settle st (TaskManager.deleteTask st taskId engine)
  | ClickFilter filter => TaskManager.setFilter st filter
  | ChangeHideCompleted checked =>
      settle (with_checked st checked)
        (TaskManager.hideCompletedChanged st checked)
  | TimerFires n =>
      match timers st !! n with
      | Some (_, callback) =>
          let st := with_timers st (delete n (timers st)) in
          settle st (TaskManager.run_callback st callback)
      | None => st
      end
  end.

Definition run (st : State) (events : list Event) : State :=
  fold_left handle events st.

(** The clock readings [Date.now()] returns to the submissions that reach
    [createTask], in order. *)
Fixpoint readings (events : list Event) : list Z :=
  match events with
  | [] => []
  | Submit title _ now _ :: rest =>
      match trim title with
      | [] => readings rest
      | _ :: _ => now :: readings rest
      end
  | _ :: rest => readings rest
  end.

(** ** What the store gives back

    A task after a trip through the store: a [Date] has become the string
    [toISOString] writes for it. *)
Definition revived (task : Task) : Task :=
  {| id := id task; title := title task; description := description task;
     completed := completed task;
     createdAt :=
       match createdAt task with
       | DateObject t => DateString (toISOString t)
       | DateString s => DateString s
       end |}.

(** ** Reading markup

    How the HTML parser splits markup into tags and text.  A tag runs from a
    [<] that a letter, [/], [!] or [?] follows to the next [>]; anything
    else is text, in which line breaks are normalized and the four
    character references that a text serialization can contain are
    decoded. *)

Inductive Token : Type :=
| Tag (text : jsstring)
| Text (text : jsstring).

Definition reference (s : jsstring) : option (N * nat) :=
  match JSON.strip_prefix (lit "amp;") s with
  | Some _ => Some (38, 4%nat)
  | None =>
      match JSON.strip_prefix (lit "lt;") s with
      | Some _ => Some (60, 3%nat)
      | None =>
          match JSON.strip_prefix (lit "gt;") s with
          | Some _ => Some (62, 3%nat)
          | None =>
              match JSON.strip_prefix (lit "nbsp;") s with
              | Some _ => Some (160, 5%nat)
              | None => None
              end
          end
      end
  end.

Fixpoint decode_text_from (skip : nat) (s : jsstring) : jsstring :=
  match s with
  | [] => []
  | c :: r =>
      match skip with
      | S k => decode_text_from k r
      | O =>
          if c =? 38 then
            match reference r with
            | Some (u, k) => u :: decode_text_from k r
            | None => c :: decode_text_from O r
            end
          else c :: decode_text_from O r
      end
  end.

Definition decode_text (s : jsstring) : jsstring := decode_text_from O s.

(** What the parser makes of line breaks and of NUL in text: a carriage
    return, with the line feed after it if there is one, is one line feed,
    and NUL is dropped. *)
Fixpoint normalize (s : jsstring) : jsstring :=
  match s with
  | [] => []
  | c :: r =>
      if c =? 13 then
        10 :: match r with
              | d :: r' => if d =? 10 then normalize r' else normalize r
              | [] => []
              end
      else if c =? 0 then normalize r
      else c :: normalize r
  end.

Definition is_tag_start (c : N) : bool :=
  ((65 <=? c) && (c <=? 90)) || ((97 <=? c) && (c <=? 122))
  || (c =? 47) || (c =? 33) || (c =? 63).

Inductive Mode : Type :=
| InText
| InTag.

(** The text seen so far becomes a token, unless nothing is left of it. *)
Definition flush_text (cur : jsstring) (out : list Token) : list Token :=
  match decode_text (normalize (rev cur)) with
  | [] => out
  | text => Text text :: out
  end.

(** The scanner keeps the characters of the token it is in and the tokens
    it has produced, both latest first. *)
Fixpoint scan (mode : Mode) (cur : jsstring) (out : list Token) (s : jsstring)
  : Mode * jsstring * list Token :=
  match s with
  | [] => (mode, cur, out)
  | c :: r =>
      match mode with
      | InText =>
          if (c =? 60) && match r with d :: _ => is_tag_start d | [] => false end
          then scan InTag [] (flush_text cur out) r
          else scan InText (c :: cur) out r
      | InTag =>
          if c =? 62 then scan InText [] (Tag (rev cur) :: out) r
          else scan InTag (c :: cur) out r
      end
  end.

Definition tokenize (markup : jsstring) : list Token :=
  match scan InText [] [] markup with
  | (InText, cur, out) => rev (flush_text cur out)
  | (InTag, cur, out) => rev out
  end.

(** The scanner state with more tokens behind those it has produced, the
    tokens a state stands for at the end of the markup, and the token a
    text makes. *)
Definition push (more : list Token) (state : Mode * jsstring * list Token)
  : Mode * jsstring * list Token :=
  let '(mode, cur, out) := state in (mode, cur, out ++ more).

Definition finish (state : Mode * jsstring * list Token) : list Token :=
  match state with
  | (InText, cur, out) => rev (flush_text cur out)
  | (InTag, cur, out) => rev out
  end.

Definition text_token (t : jsstring) : list Token :=
  match normalize t with
  | [] => []
  | text => [Text text]
  end.

(** Text that is only ASCII white space, such as the line breaks and the
    indentation between the tags of a template, shows nothing. *)
Definition blank (text : jsstring) : bool :=
  forallb (fun c => (c =? 9) || (c =? 10) || (c =? 12) || (c =? 13) || (c =? 32))
    text.

Definition visible (text : jsstring) : list Token :=
  if blank text then [] else [Text text].

(** The tags and the texts that are not blank. *)
Definition significant (tokens : list Token) : list Token :=
  flat_map (fun token => match token with
                         | Tag _ => [token]
                         | Text text => visible text
                         end) tokens.

(** ** Selecting

    [kept P l r]: [r] is [l] without the elements that fail [P], in the
    order of [l]. *)
Inductive kept {A : Type} (P : A -> Prop) : list A -> list A -> Prop :=
| kept_nil : kept P [] []
| kept_cons x l r : P x -> kept P l r -> kept P (x :: l) (x :: r)
| kept_skip x l r : ~ P x -> kept P l r -> kept P (x :: l) r.

(** ** The page as it opens

    A store with nothing in it and room to write, a store with no room
    left, and the state the constructor leaves when no tasks are stored and
    completed tasks are shown. *)

Definition empty_store : Storage := {| items := ∅; quota := 5000000 |}.

Definition full_store : Storage := {| items := ∅; quota := 0 |}.

Definition blank_page (ls : Storage) : State :=
  {| tasks := []; currentFilter := lit "all";
     hideCompletedToggle_checked := false;
     taskList := []; emptyState_hidden := false;
     notificationText := []; notification_show := false;
     timers := []; localStorage := ls |}.

(** ** theme.js: class ThemeManager

    What the theme controller changes on the page: the class [dark-mode] of
    the body, the class name of the icon in the toggle button, the text
    handed to [style.setProperty] for [--accent] (whether the engine takes
    it as a value is not modelled), and the class [active] of each colour
    swatch, which carries its colour in [data-color] when it has that
    attribute.  The store is the one [TaskStorage] works on: a method takes
    it and returns, beside the page, the store it leaves or the exception
    that ends it (what it did to the page until then stays). *)

Record Swatch : Type := {
  dataset_color : option jsstring;
  swatch_active : bool
}.

Record Theme : Type := {
  body_dark_mode : bool;
  themeToggleIcon_className : jsstring;
  accent : jsstring;
  colorSwatches : list Swatch
}.

Module ThemeManager.

Definition setDarkMode (th : Theme) (isDarkMode : bool) : Theme :=
  if isDarkMode then
    {| body_dark_mode := true;
       themeToggleIcon_className := lit "fas fa-sun";
       accent := accent th; colorSwatches := colorSwatches th |}
  else
    {| body_dark_mode := false;
       themeToggleIcon_className := lit "fas fa-moon";
       accent := accent th; colorSwatches := colorSwatches th |}.

Definition setAccentColor (th : Theme) (ls : Storage) (color : jsstring)
  : Theme * outcome Storage :=
  let th :=
    {| body_dark_mode := body_dark_mode th;
       themeToggleIcon_className := themeToggleIcon_className th;
       accent := lit "var(--" ++ color ++ lit ")";
       colorSwatches :=
         map (fun swatch =>
                {| dataset_color := dataset_color swatch;
                   swatch_active :=
                     bool_decide (dataset_color swatch = Some color) |})
             (colorSwatches th) |} in
  (th,
   result ← TaskStorage.updatePreference ls (lit "accentColor") (VStr color);
   Ok (fst result)).

Definition toggleDarkMode (th : Theme) (ls : Storage) : Theme * outcome Storage :=
  let isDarkMode := body_dark_mode th in
  (setDarkMode th (negb isDarkMode),
   result ← TaskStorage.updatePreference ls (lit "darkMode")
              (VBool (negb isDarkMode));
   Ok (fst result)).

(** [loadTheme] hands what it finds in the preferences to [setDarkMode] and
    [setAccentColor].  It is followed when the stored [darkMode] is not a
    number and the stored [accentColor] is a string; otherwise the result
    is [None]. *)
Definition loadTheme (th : Theme) (ls : Storage) : option (Theme * outcome Storage) :=
  match TaskStorage.getPreferences ls with
  | Ok preferences =>
      match get_property preferences (lit "darkMode") with
      | Ok darkMode =>
          match ToBoolean darkMode with
          | Some isDarkMode =>
              let th := setDarkMode th isDarkMode in
              match get_property preferences (lit "accentColor") with
              | Ok (VStr color) => Some (setAccentColor th ls color)
              | Ok _ => None
              | Throw e => Some (th, Throw e)
              end
          | None => None
          end
      | Throw e => Some (th, Throw e)
      end
  | Throw e => Some (th, Throw e)
  end.

End ThemeManager.

(** * Properties *)

(** Induction on values, with the elements of an array and the properties
    of an object as smaller values. *)
Lemma value_induction (P : value -> Prop) :
  P VUndefined -> P VNull -> (forall b, P (VBool b)) ->
  (forall literal, P (VNum literal)) -> (forall s, P (VStr s)) ->
  (forall t, P (VDate t)) ->
  (forall elems, Forall P elems -> P (VArr elems)) ->
  (forall props, Forall (fun p => P (snd p)) props -> P (VObj props)) ->
  forall v, P v.
Proof.
  intros HU HN HB HNum HS HD HA HO.
  fix IH 1. intros [ | | b | l | s | t | elems | props ].
  - exact HU.
  - exact HN.
  - apply HB.
  - apply HNum.
  - apply HS.
  - apply HD.
  - apply HA. induction elems as [|e elems IHe]; constructor; [apply IH | exact IHe].
  - apply HO. induction props as [|p props IHp]; constructor; [apply IH | exact IHp].
Qed.

(** ** Reading back what [JSON.stringify] writes *)

Module JSONFacts.
Import JSON.

Lemma hex_value_digit n : n < 16 -> hex_value (hex_digit n) = Some n.
Proof.
  intros Hn. unfold hex_value, hex_digit.
  destruct (N.ltb_spec n 10).
  - replace ((48 <=? 48 + n) && (48 + n <=? 57)) with true.
    + f_equal. lia.
    + symmetry. apply andb_true_iff. split; apply N.leb_le; lia.
  - replace ((48 <=? 87 + n) && (87 + n <=? 57)) with false.
    + replace ((97 <=? 87 + n) && (87 + n <=? 102)) with true.
      * f_equal. lia.
      * symmetry. apply andb_true_iff. split; apply N.leb_le; lia.
    + symmetry. apply andb_false_iff. right. apply N.leb_gt. lia.
Qed.

Lemma hex4_value c : c < 65536 ->
  (c / 4096 mod 16) * 4096 + (c / 256 mod 16) * 256 + (c / 16 mod 16) * 16 + c mod 16 = c.
Proof.
  intros Hc.
  pose proof (N.div_mod c 16 ltac:(lia)).
  pose proof (N.div_mod (c / 16) 16 ltac:(lia)).
  pose proof (N.div_mod (c / 256) 16 ltac:(lia)).
  pose proof (N.div_mod (c / 4096) 16 ltac:(lia)).
  assert (c / 256 = c / 16 / 16) by (rewrite N.Div0.div_div; reflexivity).
  assert (c / 4096 = c / 256 / 16) by (rewrite N.Div0.div_div; reflexivity).
  assert (c / 4096 / 16 = 0).
  { rewrite N.Div0.div_div. apply N.div_small. simpl. lia. }
  pose proof (N.mod_lt c 16 ltac:(lia)).
  pose proof (N.mod_lt (c / 16) 16 ltac:(lia)).
  pose proof (N.mod_lt (c / 256) 16 ltac:(lia)).
  pose proof (N.mod_lt (c / 4096) 16 ltac:(lia)).
  lia.
Qed.


Lemma parse_chars_literal c r :
  c <> 34 -> c <> 92 -> 32 <= c ->
  parse_chars (c :: r) = cons_result c (parse_chars r).
Proof.
  intros H1 H2 H3. simpl.
  destruct (N.eqb_spec c 34); [contradiction|].
  destruct (N.eqb_spec c 92); [contradiction|].
  destruct (N.ltb_spec c 32); [lia|]. reflexivity.
Qed.

Lemma parse_chars_unicode c r :
  c < 65536 ->
  parse_chars (UnicodeEscape c ++ r) = cons_result c (parse_chars r).
Proof.
  intros Hc. unfold UnicodeEscape.
  cbn [app parse_chars].
  change (92 =? 34) with false. change (92 =? 92) with true.
  change (117 =? 117) with true. cbn iota.
  rewrite !hex_value_digit by (apply N.mod_lt; lia).
  rewrite hex4_value by exact Hc. reflexivity.
Qed.

Lemma parse_chars_quote_unit c r :
  parse_chars (quote_unit c ++ r) = cons_result c (parse_chars r).
Proof.
  unfold quote_unit.
  destruct (N.eqb_spec c 8) as [->|]; [reflexivity|].
  destruct (N.eqb_spec c 9) as [->|]; [reflexivity|].
  destruct (N.eqb_spec c 10) as [->|]; [reflexivity|].
  destruct (N.eqb_spec c 12) as [->|]; [reflexivity|].
  destruct (N.eqb_spec c 13) as [->|]; [reflexivity|].
  destruct (N.eqb_spec c 34) as [->|]; [reflexivity|].
  destruct (N.eqb_spec c 92) as [->|]; [reflexivity|].
  destruct ((c <? 32) || is_lead c || is_trail c) eqn:E.
  - apply parse_chars_unicode.
    unfold is_lead, is_trail in E.
    apply orb_true_iff in E as [E|E]; [apply orb_true_iff in E as [E|E]|].
    + apply N.ltb_lt in E. lia.
    + apply andb_true_iff in E as [_ E]. apply N.leb_le in E. lia.
    + apply andb_true_iff in E as [_ E]. apply N.leb_le in E. lia.
  - apply orb_false_iff in E as [E _]. apply orb_false_iff in E as [E _].
    apply N.ltb_ge in E. apply parse_chars_literal; assumption.
Qed.

Lemma parse_chars_surrogate c r :
  is_lead c || is_trail c = true ->
  parse_chars (c :: r) = cons_result c (parse_chars r).
Proof.
  intros E. apply parse_chars_literal; unfold is_lead, is_trail in E;
    apply orb_true_iff in E as [E|E]; apply andb_true_iff in E as [E _];
    apply N.leb_le in E; lia.
Qed.

Lemma quote_units_cons2 c d r :
  quote_units (c :: d :: r) =
  if is_lead c && is_trail d then c :: d :: quote_units r
  else quote_unit c ++ quote_units (d :: r).
Proof. reflexivity. Qed.

(** Reading back the characters of a quoted string. *)
Lemma parse_chars_quote_units s rest :
  parse_chars (quote_units s ++ 34 :: rest) = Some (s, rest).
Proof.
  remember (length s) as n eqn:Hn.
  revert s Hn. induction n as [n IH] using lt_wf_ind. intros s Hn.
  destruct s as [|c [|d r]].
  - reflexivity.
  - cbn [quote_units]. rewrite parse_chars_quote_unit. reflexivity.
  - rewrite quote_units_cons2. destruct (is_lead c && is_trail d) eqn:E.
    + apply andb_true_iff in E as [Ec Ed].
      rewrite <- !app_comm_cons.
      rewrite parse_chars_surrogate by (rewrite Ec; reflexivity).
      rewrite parse_chars_surrogate by (rewrite Ed; apply orb_true_r).
      rewrite (IH (length r) ltac:(subst n; simpl; lia) r eq_refl). reflexivity.
    + rewrite <- app_assoc, parse_chars_quote_unit.
      rewrite (IH (length (d :: r)) ltac:(subst n; simpl; lia) (d :: r) eq_refl).
      reflexivity.
Qed.


(** *** Values *)

Lemma expect_head c' c r :
  is_ws c = false -> expect c' (c :: r) = if c =? c' then Some r else None.
Proof. intros Hc. unfold expect. cbn [skip_ws]. rewrite Hc. reflexivity. Qed.

Lemma parse_value_S fuel c r :
  is_ws c = false ->
  parse_value (S fuel) (c :: r) =
  if c =? 123 then
    match expect 125 r with
    | Some r' => Some (VObj [], r')
    | None =>
        match parse_members fuel r with
        | Some (ms, r') => Some (build_object ms, r')
        | None => None
        end
    end
  else if c =? 91 then
    match expect 93 r with
    | Some r' => Some (VArr [], r')
    | None =>
        match parse_elements fuel r with
        | Some (vs, r') => Some (VArr vs, r')
        | None => None
        end
    end
  else if c =? 34 then
    match parse_chars r with
    | Some (str, r') => Some (VStr str, r')
    | None => None
    end
  else if c =? 116 then
    match strip_prefix (lit "rue") r with
    | Some r' => Some (VBool true, r')
    | None => None
    end
  else if c =? 102 then
    match strip_prefix (lit "alse") r with
    | Some r' => Some (VBool false, r')
    | None => None
    end
  else if c =? 110 then
    match strip_prefix (lit "ull") r with
    | Some r' => Some (VNull, r')
    | None => None
    end
  else
    match parse_number (c :: r) with
    | Some (literal, r') => Some (VNum literal, r')
    | None => None
    end.
Proof. intros Hc. cbn [parse_value skip_ws]. rewrite Hc. reflexivity. Qed.

Lemma parse_elements_S fuel s :
  parse_elements (S fuel) s =
  match parse_value fuel s with
  | Some (v, r) =>
      match expect 44 r with
      | Some r' =>
          match parse_elements fuel r' with
          | Some (vs, r'') => Some (v :: vs, r'')
          | None => None
          end
      | None =>
          match expect 93 r with
          | Some r' => Some ([v], r')
          | None => None
          end
      end
  | None => None
  end.
Proof. reflexivity. Qed.

Lemma parse_members_S fuel s :
  parse_members (S fuel) s =
  match expect 34 s with
  | Some r =>
      match parse_chars r with
      | Some (k, r1) =>
          match expect 58 r1 with
          | Some r2 =>
              match parse_value fuel r2 with
              | Some (v, r3) =>
                  match expect 44 r3 with
                  | Some r4 =>
                      match parse_members fuel r4 with
                      | Some (ms, r5) => Some ((k, v) :: ms, r5)
                      | None => None
                      end
                  | None =>
                      match expect 125 r3 with
                      | Some r4 => Some ([(k, v)], r4)
                      | None => None
                      end
                  end
              | None => None
              end
          | None => None
          end
      | None => None
      end
  | None => None
  end.
Proof. reflexivity. Qed.

Lemma value_start_not_ws c : value_start c -> is_ws c = false.
Proof. intros H. repeat destruct H as [->|H]; try subst c; reflexivity. Qed.

Lemma reads_null : reads VNull (lit "null").
Proof.
  split; [reflexivity|]. split.
  - eexists _, _. split; [reflexivity|]. unfold value_start. auto 10.
  - intros [|fuel] rest Hf; [simpl in Hf; lia|]. reflexivity.
Qed.

Lemma reads_bool b : reads (VBool b) (if b then lit "true" else lit "false").
Proof.
  split; [destruct b; reflexivity|]. split.
  - destruct b; eexists _, _; (split; [reflexivity|]); unfold value_start; auto.
  - intros [|fuel] rest Hf; [simpl in Hf; destruct b; simpl in Hf; lia|].
    destruct b; reflexivity.
Qed.

Lemma reads_string s : reads (VStr s) (QuoteJSONString s).
Proof.
  split; [reflexivity|]. split.
  - eexists _, _. split; [reflexivity|]. unfold value_start. auto 10.
  - intros [|fuel] rest Hf; [lia|].
    unfold QuoteJSONString. rewrite <- app_comm_cons.
    rewrite parse_value_S by reflexivity.
    change (34 =? 123) with false. change (34 =? 91) with false.
    change (34 =? 34) with true. cbn iota.
    rewrite <- app_assoc. cbn [app].
    rewrite parse_chars_quote_units. reflexivity.
Qed.


Lemma join_comma_cons2 t t2 l :
  join_comma (t :: t2 :: l) = t ++ 44 :: join_comma (t2 :: l).
Proof. reflexivity. Qed.

Lemma value_start_expect c' c r :
  value_start c -> c' <> 110 -> c' <> 116 -> c' <> 102 -> c' <> 34 ->
  c' <> 91 -> c' <> 123 -> expect c' (c :: r) = None.
Proof.
  intros Hc. intros. rewrite expect_head by (apply value_start_not_ws, Hc).
  destruct (N.eqb_spec c c'); [|reflexivity].
  subst c'. unfold value_start in Hc. intuition congruence.
Qed.

Lemma parse_elements_join elems texts :
  Forall2 reads elems texts -> elems <> [] ->
  forall fuel rest, (2 * length (join_comma texts) + 2 <= fuel)%nat ->
    parse_elements fuel (join_comma texts ++ 93 :: rest) = Some (elems, rest).
Proof.
  induction 1 as [|e t elems texts He Hrest IH]; [congruence|].
  intros _ [|fuel] rest Hf; [lia|].
  rewrite parse_elements_S. destruct He as (_ & _ & Hparse).
  destruct Hrest as [|e2 t2 elems' texts' He2 Hrest'].
  - cbn [join_comma] in *.
    rewrite Hparse by lia.
    rewrite !expect_head by reflexivity. reflexivity.
  - rewrite join_comma_cons2 in *. rewrite <- app_assoc.
    rewrite length_app in Hf. cbn [length] in Hf.
    rewrite Hparse by lia.
    rewrite <- app_comm_cons, expect_head by reflexivity.
    change (44 =? 44) with true. cbn iota.
    rewrite IH; [reflexivity | congruence | lia].
Qed.

Lemma parse_members_join props texts :
  Forall2 (fun p t => reads (snd p) t) props texts -> props <> [] ->
  forall fuel rest,
    (2 * length (join_comma (zip_with member_text props texts)) + 2 <= fuel)%nat ->
    parse_members fuel (join_comma (zip_with member_text props texts) ++ 125 :: rest)
    = Some (props, rest).
Proof.
  induction 1 as [|[k v] t props texts He Hrest IH]; [congruence|].
  intros _ [|fuel] rest Hf; [lia|].
  rewrite parse_members_S. destruct He as (_ & _ & Hparse). cbn [snd] in Hparse.
  assert (Hmember : forall more,
    match expect 34 (member_text (k, v) t ++ more) with
    | Some r => parse_chars r
    | None => None
    end = Some (k, 58 :: t ++ more)).
  { intros more. unfold member_text, QuoteJSONString. cbn [fst].
    rewrite <- !app_comm_cons. rewrite expect_head by reflexivity.
    change (34 =? 34) with true. cbn iota.
    rewrite <- !app_assoc. cbn [app]. rewrite parse_chars_quote_units.
    reflexivity. }
  destruct Hrest as [|[k2 v2] t2 props' texts' He2 Hrest'].
  - cbn [zip_with join_comma] in *.
    specialize (Hmember (125 :: rest)).
    destruct (expect 34 _) as [r|]; [|discriminate].
    rewrite Hmember. rewrite expect_head by reflexivity.
    change (58 =? 58) with true. cbn iota.
    unfold member_text in Hf. rewrite !length_app in Hf. cbn [length] in Hf.
    rewrite Hparse by lia.
    rewrite !expect_head by reflexivity. reflexivity.
  - cbn [zip_with] in *. rewrite join_comma_cons2 in *. rewrite <- app_assoc.
    specialize (Hmember ((44 :: join_comma (member_text (k2, v2) t2 :: zip_with member_text props' texts')) ++ 125 :: rest)).
    destruct (expect 34 _) as [r|]; [|discriminate].
    rewrite Hmember. rewrite expect_head by reflexivity.
    change (58 =? 58) with true. cbn iota.
    unfold member_text in Hf at 1. rewrite !length_app in Hf. cbn [length] in Hf.
    rewrite Hparse by lia.
    rewrite <- app_comm_cons, expect_head by reflexivity.
    change (44 =? 44) with true. cbn iota.
    rewrite IH; [reflexivity | congruence | lia].
Qed.


Lemma define_own_fresh props k v :
  k ∉ map fst props -> define_own props k v = props ++ [(k, v)].
Proof.
  induction props as [|[k' v'] props IH]; intros Hk; [reflexivity|].
  cbn [define_own]. cbn [map fst] in Hk.
  apply not_elem_of_cons in Hk as [Hne Hk].
  destruct (decide (k' = k)); [congruence|].
  rewrite IH by exact Hk. reflexivity.
Qed.

Lemma fold_define_own ms : forall acc,
  NoDup (map fst (acc ++ ms)) ->
  fold_left (fun props m => define_own props (fst m) (snd m)) ms acc = acc ++ ms.
Proof.
  induction ms as [|[k v] ms IH]; intros acc Hnd.
  - rewrite app_nil_r. reflexivity.
  - cbn [fold_left fst snd].
    assert (Hk : k ∉ map fst acc).
    { rewrite map_app in Hnd. apply NoDup_app in Hnd as (_ & Hd & _).
      intros Hin. apply (Hd k Hin). cbn [map fst]. apply list_elem_of_here. }
    rewrite define_own_fresh by exact Hk.
    rewrite IH.
    + rewrite <- app_assoc. reflexivity.
    + rewrite <- app_assoc. exact Hnd.
Qed.

Lemma build_object_NoDup ms :
  NoDup (map fst ms) -> build_object ms = VObj ms.
Proof.
  intros Hnd. unfold build_object. rewrite fold_define_own; [reflexivity|exact Hnd].
Qed.

Lemma join_comma_head c r texts :
  exists r', join_comma ((c :: r) :: texts) = c :: r'.
Proof. destruct texts as [|t2 texts]; cbn [join_comma app]; eauto. Qed.

Lemma serialize_elements elems texts :
  Forall2 reads elems texts ->
  map (fun e => match serialize e with Some t => t | None => lit "null" end) elems
  = texts.
Proof.
  induction 1 as [|e t elems texts (He & _) _ IH]; [reflexivity|].
  cbn [map]. rewrite He, IH. reflexivity.
Qed.

Lemma serialize_members props texts :
  Forall2 (fun p t => reads (snd p) t) props texts ->
  flat_map (fun p => match serialize (snd p) with
                     | Some t => [QuoteJSONString (fst p) ++ 58 :: t]
                     | None => []
                     end) props
  = zip_with member_text props texts.
Proof.
  induction 1 as [|p t props texts (He & _) _ IH]; [reflexivity|].
  cbn [flat_map zip_with]. rewrite He, IH. reflexivity.
Qed.

(** Every exact value has a text, and reading the text gives the value. *)
Lemma exact_reads v : exact v = true -> exists text, reads v text.
Proof.
  induction v as [ | | b | literal | s | t | elems IH | props IH ]
    using value_induction; cbn [exact]; intros Hex; try discriminate.
  - eexists. apply reads_null.
  - eexists. apply reads_bool.
  - eexists. apply reads_string.
  - assert (Htexts : exists texts, Forall2 reads elems texts).
    { induction IH as [|e elems He _ IHl].
      - exists []. constructor.
      - cbn [forallb] in Hex. apply andb_true_iff in Hex as [Hex1 Hex2].
        destruct (He Hex1) as [t Ht]. destruct (IHl Hex2) as [texts Htexts].
        exists (t :: texts). constructor; assumption. }
    destruct Htexts as [texts Htexts].
    exists (91 :: join_comma texts ++ [93]). split; [|split].
    + cbn [serialize]. rewrite (serialize_elements _ _ Htexts). reflexivity.
    + eexists _, _. split; [reflexivity|]. unfold value_start. auto 10.
    + intros [|fuel] rest Hf; [lia|].
      rewrite <- app_comm_cons, parse_value_S by reflexivity.
      change (91 =? 123) with false. change (91 =? 91) with true. cbn iota.
      rewrite <- app_assoc. cbn [app].
      destruct Htexts as [|e t elems texts He Hrest].
      * cbn [join_comma app]. rewrite expect_head by reflexivity. reflexivity.
      * pose proof He as (_ & (c & r & -> & Hc) & _).
        destruct (join_comma_head c r texts) as [r' Hr'].
        rewrite Hr' at 1. rewrite <- app_comm_cons.
        rewrite (value_start_expect 93 c) by (exact Hc || discriminate).
        cbn [length] in Hf. rewrite length_app in Hf. cbn [length] in Hf.
        rewrite (parse_elements_join (e :: elems) ((c :: r) :: texts));
          [reflexivity | constructor; assumption | discriminate | ].
        lia.
  - apply andb_true_iff in Hex as [Hex Hnd]. apply bool_decide_eq_true in Hnd.
    assert (Htexts : exists texts, Forall2 (fun p t => reads (snd p) t) props texts).
    { clear Hnd. induction IH as [|p props He _ IHl].
      - exists []. constructor.
      - cbn [forallb] in Hex. apply andb_true_iff in Hex as [Hex1 Hex2].
        destruct (He Hex1) as [t Ht]. destruct (IHl Hex2) as [texts Htexts].
        exists (t :: texts). constructor; assumption. }
    destruct Htexts as [texts Htexts].
    exists (123 :: join_comma (zip_with member_text props texts) ++ [125]).
    split; [|split].
    + cbn [serialize]. rewrite (serialize_members _ _ Htexts). reflexivity.
    + eexists _, _. split; [reflexivity|]. unfold value_start. auto 10.
    + intros [|fuel] rest Hf; [lia|].
      rewrite <- app_comm_cons, parse_value_S by reflexivity.
      change (123 =? 123) with true. cbn iota.
      rewrite <- app_assoc. cbn [app].
      destruct Htexts as [|p t props texts He Hrest].
      * cbn [zip_with join_comma app]. rewrite expect_head by reflexivity.
        reflexivity.
      * cbn [zip_with].
        destruct (join_comma_head 34 (quote_units (fst p) ++ [34] ++ 58 :: t)
                    (zip_with member_text props texts)) as [r' Hr'].
        assert (Hm : member_text p t = 34 :: quote_units (fst p) ++ [34] ++ 58 :: t).
        { unfold member_text, QuoteJSONString. rewrite <- app_comm_cons, <- app_assoc.
          reflexivity. }
        rewrite <- Hm in Hr'. rewrite Hr' at 1. rewrite <- app_comm_cons.
        rewrite expect_head by reflexivity.
        change (34 =? 125) with false. cbn iota.
        cbn [length] in Hf. rewrite length_app in Hf. cbn [length] in Hf.
        rewrite (parse_members_join (p :: props) (t :: texts));
          [ | constructor; assumption | discriminate | cbn [zip_with] in *; lia].
        rewrite build_object_NoDup by exact Hnd. reflexivity.
Qed.

(** [JSON.parse (JSON.stringify v)] is [v] for an exact value. *)
Lemma parse_stringify v :
  exact v = true ->
  exists text, stringify v = Some text /\ parse text = Some v.
Proof.
  intros Hex. destruct (exact_reads v Hex) as (text & Hs & _ & Hp).
  exists text. split; [exact Hs|].
  unfold parse. specialize (Hp (2 * length text + 1)%nat [] ltac:(lia)).
  rewrite app_nil_r in Hp. rewrite Hp. reflexivity.
Qed.

(** *** Fuel *)

Lemma skip_ws_length s : (length (skip_ws s) <= length s)%nat.
Proof.
  induction s as [|c r IH]; cbn [skip_ws length]; [lia|].
  destruct (is_ws c); cbn [length]; lia.
Qed.

Lemma expect_length c s r : expect c s = Some r -> (length r < length s)%nat.
Proof.
  unfold expect. pose proof (skip_ws_length s) as Hs.
  destruct (skip_ws s) as [|c' r']; [discriminate|].
  destruct (c' =? c); [|discriminate].
  intros H. inversion H; subst. cbn [length] in Hs. lia.
Qed.

Lemma parse_chars_length s : forall k r,
  parse_chars s = Some (k, r) -> (length r < length s)%nat.
Proof.
  remember (length s) as n eqn:Hn. revert s Hn.
  induction n as [n IH] using lt_wf_ind. intros s Hn k r.
  destruct s as [|c s]; cbn [parse_chars]; [discriminate|].
  cbn [length] in Hn.
  destruct (c =? 34).
  { intros H. inversion H; subst. cbn [length]. lia. }
  destruct (c =? 92).
  - destruct s as [|e s]; [discriminate|].
    destruct (e =? 117).
    + destruct s as [|h1 [|h2 [|h3 [|h4 s]]]]; try discriminate.
      destruct (hex_value h1), (hex_value h2), (hex_value h3), (hex_value h4);
        try discriminate.
      destruct (parse_chars s) as [[str rest]|] eqn:Hp; [|discriminate].
      intros H. inversion H; subst.
      apply (IH (length s)) in Hp; [|cbn [length] in *; lia|reflexivity].
      cbn [length]. lia.
    + destruct (simple_escape e); [|discriminate].
      destruct (parse_chars s) as [[str rest]|] eqn:Hp; [|discriminate].
      intros H. inversion H; subst.
      apply (IH (length s)) in Hp; [|cbn [length] in *; lia|reflexivity].
      cbn [length]. lia.
  - destruct (c <? 32); [discriminate|].
    destruct (parse_chars s) as [[str rest]|] eqn:Hp; [|discriminate].
    intros H. inversion H; subst.
    apply (IH (length s)) in Hp; [|lia|reflexivity].
    cbn [length]. lia.
Qed.

Lemma strip_prefix_length p : forall s r,
  strip_prefix p s = Some r -> (length r <= length s)%nat.
Proof.
  induction p as [|a p IH]; intros s r; cbn [strip_prefix].
  - intros H. inversion H. lia.
  - destruct s as [|b s]; [discriminate|].
    destruct (a =? b); [|discriminate].
    intros H. apply IH in H. cbn [length]. lia.
Qed.

Lemma span_digits_length s :
  (length (snd (span_digits s)) <= length s)%nat.
Proof.
  induction s as [|c r IH]; cbn [span_digits]; [cbn; lia|].
  destruct (is_digit c); [|cbn; lia].
  destruct (span_digits r) as [ds rest]. cbn [snd length] in *. lia.
Qed.

Lemma parse_number_length s literal r :
  parse_number s = Some (literal, r) -> (length r < length s)%nat.
Proof.
  unfold parse_number.
  assert (Hint : forall s1 i s2, parse_int s1 = Some (i, s2) ->
                   (length s2 < length s1)%nat).
  { intros s1 i s2. unfold parse_int. destruct s1 as [|c r1]; [discriminate|].
    destruct (c =? 48).
    - intros H. inversion H; subst. cbn [length]. lia.
    - destruct (is_digit c) eqn:Hd; [|discriminate].
      intros H. inversion H as [Hs]. cbn [span_digits] in Hs. rewrite Hd in Hs.
      pose proof (span_digits_length r1) as Hl.
      destruct (span_digits r1) as [ds rest]. inversion Hs; subst.
      cbn [snd length] in *. lia. }
  assert (Hfrac : forall s2 f s3, parse_frac s2 = Some (f, s3) ->
                   (length s3 <= length s2)%nat).
  { intros s2 f s3. unfold parse_frac.
    destruct s2 as [|c r2]; [intros H; inversion H; lia|].
    destruct (c =? 46); [|intros H; inversion H; lia].
    pose proof (span_digits_length r2) as Hl.
    destruct (span_digits r2) as [[|d ds] rest]; [discriminate|].
    intros H. inversion H; subst. cbn [snd length] in *. lia. }
  assert (Hexp : forall s3 e s4, parse_exp s3 = Some (e, s4) ->
                   (length s4 <= length s3)%nat).
  { intros s3 e s4. unfold parse_exp.
    destruct s3 as [|c r3]; [intros H; inversion H; lia|].
    destruct ((c =? 101) || (c =? 69)); [|intros H; inversion H; lia].
    destruct r3 as [|d r'].
    - cbn. discriminate.
    - destruct ((d =? 43) || (d =? 45)).
      + pose proof (span_digits_length r') as Hl.
        destruct (span_digits r') as [[|x ds] rest]; [discriminate|].
        intros H. inversion H; subst. cbn [snd length] in *. lia.
      + pose proof (span_digits_length (d :: r')) as Hl.
        destruct (span_digits (d :: r')) as [[|x ds] rest]; [discriminate|].
        intros H. inversion H; subst. cbn [snd length] in *. lia. }
  destruct s as [|c s0].
  - cbn. discriminate.
  - assert (Hsign : exists sign s1,
              (if c =? 45 then ([c], s0) else ([], c :: s0)) = (sign, s1) /\
              (length s1 <= length (c :: s0))%nat).
    { destruct (c =? 45); eexists _, _; (split; [reflexivity|]); cbn [length]; lia. }
    destruct Hsign as (sign & s1 & Hsign & Hl1). rewrite Hsign.
    destruct (parse_int s1) as [[i s2]|] eqn:Hi; [|discriminate].
    destruct (parse_frac s2) as [[f s3]|] eqn:Hf; [|discriminate].
    destruct (parse_exp s3) as [[e s4]|] eqn:He; [|discriminate].
    intros H. inversion H; subst.
    apply Hint in Hi. apply Hfrac in Hf. apply Hexp in He. lia.
Qed.


(** A parse consumes at least one character. *)
Lemma parse_value_length fuel :
  (forall s v r, parse_value fuel s = Some (v, r) -> (length r < length s)%nat) /\
  (forall s vs r, parse_elements fuel s = Some (vs, r) -> (length r < length s)%nat) /\
  (forall s ms r, parse_members fuel s = Some (ms, r) -> (length r < length s)%nat).
Proof.
  induction fuel as [|fuel (IHv & IHe & IHm)]; [repeat split; discriminate|].
  split; [|split].
  - intros s v r. cbn [parse_value].
    pose proof (skip_ws_length s) as Hs.
    destruct (skip_ws s) as [|c s']; [discriminate|]. cbn [length] in Hs.
    destruct (c =? 123).
    { destruct (expect 125 s') as [r'|] eqn:He.
      - intros H. inversion H; subst. apply expect_length in He. lia.
      - destruct (parse_members fuel s') as [[ms r']|] eqn:Hm; [|discriminate].
        intros H. inversion H; subst. apply IHm in Hm. lia. }
    destruct (c =? 91).
    { destruct (expect 93 s') as [r'|] eqn:He.
      - intros H. inversion H; subst. apply expect_length in He. lia.
      - destruct (parse_elements fuel s') as [[vs r']|] eqn:Hm; [|discriminate].
        intros H. inversion H; subst. apply IHe in Hm. lia. }
    destruct (c =? 34).
    { destruct (parse_chars s') as [[str r']|] eqn:Hc; [|discriminate].
      intros H. inversion H; subst. apply parse_chars_length in Hc. lia. }
    destruct (c =? 116).
    { destruct (strip_prefix _ s') as [r'|] eqn:Hp; [|discriminate].
      intros H. inversion H; subst. apply strip_prefix_length in Hp. lia. }
    destruct (c =? 102).
    { destruct (strip_prefix _ s') as [r'|] eqn:Hp; [|discriminate].
      intros H. inversion H; subst. apply strip_prefix_length in Hp. lia. }
    destruct (c =? 110).
    { destruct (strip_prefix _ s') as [r'|] eqn:Hp; [|discriminate].
      intros H. inversion H; subst. apply strip_prefix_length in Hp. lia. }
    destruct (parse_number (c :: s')) as [[literal r']|] eqn:Hn; [|discriminate].
    intros H. inversion H; subst. apply parse_number_length in Hn.
    cbn [length] in Hn. lia.
  - intros s vs r. cbn [parse_elements].
    destruct (parse_value fuel s) as [[v r1]|] eqn:Hv; [|discriminate].
    apply IHv in Hv.
    destruct (expect 44 r1) as [r2|] eqn:He.
    + destruct (parse_elements fuel r2) as [[vs' r3]|] eqn:Hr; [|discriminate].
      intros H. inversion H; subst. apply expect_length in He. apply IHe in Hr. lia.
    + destruct (expect 93 r1) as [r2|] eqn:He'; [|discriminate].
      intros H. inversion H; subst. apply expect_length in He'. lia.
  - intros s ms r. cbn [parse_members].
    destruct (expect 34 s) as [r0|] eqn:H0; [|discriminate]. apply expect_length in H0.
    destruct (parse_chars r0) as [[k r1]|] eqn:H1; [|discriminate].
    apply parse_chars_length in H1.
    destruct (expect 58 r1) as [r2|] eqn:H2; [|discriminate]. apply expect_length in H2.
    destruct (parse_value fuel r2) as [[v r3]|] eqn:H3; [|discriminate]. apply IHv in H3.
    destruct (expect 44 r3) as [r4|] eqn:H4.
    + destruct (parse_members fuel r4) as [[ms' r5]|] eqn:H5; [|discriminate].
      intros H. inversion H; subst. apply expect_length in H4. apply IHm in H5. lia.
    + destruct (expect 125 r3) as [r4|] eqn:H4'; [|discriminate].
      intros H. inversion H; subst. apply expect_length in H4'. lia.
Qed.

(** Beyond twice the length of the text, more fuel changes nothing: a
    parse that fails has met a syntax error. *)
Lemma parse_value_fuel fuel : forall fuel', (fuel <= fuel')%nat ->
  (forall s, (2 * length s < fuel)%nat -> parse_value fuel' s = parse_value fuel s) /\
  (forall s, (2 * length s + 1 < fuel)%nat ->
     parse_elements fuel' s = parse_elements fuel s) /\
  (forall s, (2 * length s + 1 < fuel)%nat ->
     parse_members fuel' s = parse_members fuel s).
Proof.
  induction fuel as [|fuel IH]; intros fuel' Hle; [repeat split; intros; lia|].
  destruct fuel' as [|fuel']; [lia|].
  destruct (IH fuel' ltac:(lia)) as (IHv & IHe & IHm).
  destruct (parse_value_length fuel) as (Lv & Le & Lm).
  split; [|split].
  - intros s Hs. cbn [parse_value].
    pose proof (skip_ws_length s) as Hws.
    destruct (skip_ws s) as [|c s']; [reflexivity|]. cbn [length] in Hws.
    rewrite (IHm s') by lia. rewrite (IHe s') by lia. reflexivity.
  - intros s Hs. cbn [parse_elements].
    rewrite (IHv s) by lia.
    destruct (parse_value fuel s) as [[v r1]|] eqn:Hv; [|reflexivity].
    apply Lv in Hv.
    destruct (expect 44 r1) as [r2|] eqn:He; [|reflexivity].
    apply expect_length in He. rewrite (IHe r2) by lia. reflexivity.
  - intros s Hs. cbn [parse_members].
    destruct (expect 34 s) as [r0|] eqn:H0; [|reflexivity]. apply expect_length in H0.
    destruct (parse_chars r0) as [[k r1]|] eqn:H1; [|reflexivity].
    apply parse_chars_length in H1.
    destruct (expect 58 r1) as [r2|] eqn:H2; [|reflexivity]. apply expect_length in H2.
    rewrite (IHv r2) by lia.
    destruct (parse_value fuel r2) as [[v r3]|] eqn:H3; [|reflexivity]. apply Lv in H3.
    destruct (expect 44 r3) as [r4|] eqn:H4; [|reflexivity].
    apply expect_length in H4. rewrite (IHm r4) by lia. reflexivity.
Qed.

(** [JSON.parse] has all the fuel it can use. *)
Lemma parse_enough_fuel text fuel :
  (2 * length text + 1 <= fuel)%nat ->
  parse_value fuel text = parse_value (2 * length text + 1) text.
Proof.
  intros Hf.
  apply (proj1 (parse_value_fuel (2 * length text + 1) fuel Hf)). lia.
Qed.

End JSONFacts.

(** ** The store *)

Section StorageFacts.
Context (ls ls' : Storage) (key text : jsstring).
Hypothesis Hset : setItem ls key text = Ok ls'.

Lemma setItem_items : items ls' = <[key := text]> (items ls).
Proof using Hset.
  unfold setItem in Hset.
  destruct (storage_size _ <=? quota ls); inversion Hset; reflexivity.
Qed.

Lemma getItem_setItem : getItem ls' key = Some text.
Proof using Hset.
  unfold getItem. rewrite setItem_items. apply lookup_insert_eq.
Qed.

Lemma getItem_setItem_other key' : key' <> key -> getItem ls' key' = getItem ls key'.
Proof using Hset.
  intros Hne. unfold getItem. rewrite setItem_items.
  apply lookup_insert_ne. congruence.
Qed.
End StorageFacts.


(** A successful write of an exact value is read back as that value. *)
Lemma stored_exact_parses ls ls' key v :
  JSON.exact v = true ->
  setItem ls key (ToString (JSON.stringify v)) = Ok ls' ->
  truthy_text (getItem ls' key) = true /\
  JSON_parse (ToString (getItem ls' key)) = Ok v.
Proof.
  intros Hex Hset.
  destruct (JSONFacts.exact_reads v Hex) as (text & Hs & (c & r & -> & _) & _).
  destruct (JSONFacts.parse_stringify v Hex) as (text' & Hs' & Hp).
  unfold JSON.stringify in *. rewrite Hs in Hs'. inversion Hs'; subst text'.
  rewrite Hs in Hset. cbn [ToString] in Hset.
  rewrite (getItem_setItem _ _ _ _ Hset). split; [reflexivity|].
  unfold JSON_parse. cbn [ToString]. rewrite Hp. reflexivity.
Qed.

(** *** Tasks in the store *)

Lemma serialize_revived task :
  JSON.serialize (value_of_task (revived task)) = JSON.serialize (value_of_task task).
Proof.
  destruct task as [i t d c [ts|s]]; reflexivity.
Qed.

Lemma stringify_revived tasks :
  JSON.stringify (value_of_tasks (map revived tasks))
  = JSON.stringify (value_of_tasks tasks).
Proof.
  unfold JSON.stringify, value_of_tasks. cbn [JSON.serialize].
  rewrite !map_map. do 4 f_equal.
  apply map_ext. intros task. rewrite serialize_revived. reflexivity.
Qed.

Lemma exact_revived tasks :
  JSON.exact (value_of_tasks (map revived tasks)) = true.
Proof.
  unfold value_of_tasks. cbn [JSON.exact].
  induction tasks as [|[i t d c [ts|s]] tasks IH]; [reflexivity| |];
    cbn [map forallb]; rewrite IH; reflexivity.
Qed.

Lemma revived_fields task :
  id (revived task) = id task /\ title (revived task) = title task /\
  description (revived task) = description task /\
  completed (revived task) = completed task /\
  createdAt (revived task) =
    match createdAt task with
    | DateObject t => DateString (toISOString t)
    | DateString s => DateString s
    end.
Proof. repeat split. Qed.

(** *** Preferences in the store *)

Lemma get_own_define_own props k v :
  get_own (define_own props k v) k = Some v.
Proof.
  induction props as [|[k' v'] props IH]; cbn [define_own get_own].
  - destruct (decide (k = k)); congruence.
  - destruct (decide (k' = k)); cbn [get_own].
    + destruct (decide (k = k)); congruence.
    + destruct (decide (k' = k)); congruence.
Qed.

Lemma get_own_define_own_ne props k v k' :
  k' <> k -> get_own (define_own props k v) k' = get_own props k'.
Proof.
  intros Hne. induction props as [|[k0 v0] props IH]; cbn [define_own get_own].
  - destruct (decide (k = k')); congruence.
  - destruct (decide (k0 = k)); cbn [get_own].
    + subst k0. destruct (decide (k = k')); congruence.
    + rewrite IH. reflexivity.
Qed.

Lemma define_own_keys props k v :
  map fst (define_own props k v) =
  if decide (k ∈ map fst props) then map fst props else map fst props ++ [k].
Proof.
  induction props as [|[k' v'] props IH]; cbn [define_own map fst].
  - destruct (decide (k ∈ [])) as [Hin|]; [inversion Hin|reflexivity].
  - destruct (decide (k' = k)) as [->|Hne]; cbn [map fst].
    + destruct (decide (k ∈ k :: map fst props)) as [|Hn]; [reflexivity|].
      exfalso. apply Hn. apply list_elem_of_here.
    + rewrite IH.
      destruct (decide (k ∈ map fst props)) as [Hin|Hnin];
        destruct (decide (k ∈ k' :: map fst props)) as [Hin'|Hnin'];
        try reflexivity.
      * exfalso. apply Hnin'. apply list_elem_of_further. exact Hin.
      * exfalso. apply elem_of_cons in Hin' as [->|Hin']; congruence.
Qed.

Lemma exact_define_own props k v :
  JSON.exact (VObj props) = true -> JSON.exact v = true ->
  JSON.exact (VObj (define_own props k v)) = true.
Proof.
  cbn [JSON.exact]. intros Hp Hv.
  apply andb_true_iff in Hp as [Hall Hnd]. apply bool_decide_eq_true in Hnd.
  apply andb_true_iff. split.
  - clear Hnd. induction props as [|[k' v'] props IH]; cbn [define_own].
    + cbn [forallb snd]. rewrite Hv. reflexivity.
    + cbn [forallb snd] in Hall. apply andb_true_iff in Hall as [H1 H2].
      destruct (decide (k' = k)); cbn [forallb snd].
      * rewrite Hv, H2. reflexivity.
      * rewrite H1, (IH H2). reflexivity.
  - apply bool_decide_eq_true. rewrite define_own_keys.
    destruct (decide (k ∈ map fst props)) as [|Hnin]; [exact Hnd|].
    apply NoDup_app. split; [exact Hnd|]. split.
    + intros x Hx Hx'. apply list_elem_of_singleton in Hx'. subst x. contradiction.
    + apply NoDup_singleton.
Qed.

Lemma assign_object props k v :
  k <> lit "__proto__" ->
  assign (VObj props) k v = Ok (VObj (define_own props k v)).
Proof.
  intros Hk. unfold assign. destruct (get_own props k); [reflexivity|].
  destruct (decide (k = lit "__proto__")); [contradiction|reflexivity].
Qed.

(** ** storage.js *)

Lemma saveTasks_result ls tasks ls' ok :
  TaskStorage.saveTasks ls tasks = Ok (ls', ok) ->
  (ok = true /\ setItem ls TaskStorage.storageKey (ToString (JSON.stringify tasks)) = Ok ls')
  \/ (ok = false /\ ls' = ls).
Proof.
  unfold TaskStorage.saveTasks, try_catch, mbind, outcome_bind.
  destruct (setItem ls _ _) as [ls1|e]; intros H; inversion H; subst; auto.
Qed.

Lemma savePreferences_result ls preferences ls' ok :
  TaskStorage.savePreferences ls preferences = Ok (ls', ok) ->
  (ok = true /\
   setItem ls TaskStorage.preferenceKey (ToString (JSON.stringify preferences)) = Ok ls')
  \/ (ok = false /\ ls' = ls).
Proof.
  unfold TaskStorage.savePreferences, try_catch, mbind, outcome_bind.
  destruct (setItem ls _ _) as [ls1|e]; intros H; inversion H; subst; auto.
Qed.

(** [saveTasks] catches whatever the write throws. *)
Lemma saveTasks_total ls tasks :
  exists ls' ok, TaskStorage.saveTasks ls tasks = Ok (ls', ok).
Proof.
  unfold TaskStorage.saveTasks, try_catch, mbind, outcome_bind.
  destruct (setItem ls _ _); eauto.
Qed.

(** What [getTasks] returns, case by case. *)
Lemma getTasks_cases ls :
  match getItem ls TaskStorage.storageKey with
  | None | Some [] => TaskStorage.getTasks ls = Ok (VArr [])
  | Some text =>
      match JSON.parse text with
      | Some v => TaskStorage.getTasks ls = Ok v
      | None => TaskStorage.getTasks ls = Throw SyntaxError
      end
  end.
Proof.
  unfold TaskStorage.getTasks, JSON_parse.
  destruct (getItem ls TaskStorage.storageKey) as [[|c r]|]; try reflexivity.
  cbn [truthy_text ToString]. destruct (JSON.parse (c :: r)); reflexivity.
Qed.

(** C1 (code bug).  [getTasks] has no [try]: on a stored text that
    [JSON.parse] rejects, here an array cut off in the middle, it throws
    [SyntaxError] to its caller instead of returning the empty list. *)
Theorem getTasks_malformed_text_throws :
  TaskStorage.getTasks
    {| items := {[ TaskStorage.storageKey := lit "[{`id`:`17`,`title`:`Buy" ]};
       quota := 5000000 |}
  = Throw SyntaxError.
Proof. vm_compute. reflexivity. Qed.

(** C7.  [getPreferences] never throws, and when nothing is stored under
    the preferences key, or the stored text does not parse, it returns the
    defaults: dark mode on, accent colour lilac, completed tasks shown. *)
Theorem getPreferences_defaults (ls : Storage) :
  (exists preferences, TaskStorage.getPreferences ls = Ok preferences) /\
  (getItem ls TaskStorage.preferenceKey = None \/
   (exists text, getItem ls TaskStorage.preferenceKey = Some text /\
                 JSON.parse text = None) ->
   TaskStorage.getPreferences ls =
   Ok (VObj [(lit "darkMode", VBool true);
             (lit "accentColor", VStr (lit "lilac"));
             (lit "hideCompleted", VBool false)])).
Proof.
  unfold TaskStorage.getPreferences, try_catch, JSON_parse. split.
  - destruct (truthy_text _); [|eauto].
    destruct (JSON.parse _); eauto.
  - intros [Hnone | (text & Hsome & Hparse)].
    + rewrite Hnone. reflexivity.
    + rewrite Hsome. destruct text as [|c r]; [reflexivity|].
      cbn [truthy_text ToString]. rewrite Hparse. reflexivity.
Qed.

Lemma getPreferences_defaults_witness :
  JSON.parse (lit "{`darkMode`:tru") = None /\
  TaskStorage.getPreferences
    {| items := {[ TaskStorage.preferenceKey := lit "{`darkMode`:tru" ]};
       quota := 5000000 |}
  = Ok (VObj [(lit "darkMode", VBool true);
              (lit "accentColor", VStr (lit "lilac"));
              (lit "hideCompleted", VBool false)]).
Proof.
  split; [reflexivity|].
  apply (proj2 (getPreferences_defaults _)).
  right. exists (lit "{`darkMode`:tru"). split; reflexivity.
Defined.

(** C2, as stated, fails.  The task [createTask] makes carries a [Date],
    which is stored as its ISO text: what [getTasks] then returns has a
    string there and differs from the list that was saved.  And on a store
    with no room left the write fails, [saveTasks] returns [false], and
    [getTasks] returns what was there before. *)
Lemma saveTasks_getTasks_not_equal :
  (exists st,
     TaskManager.createTask (blank_page empty_store) (lit "Buy milk") [] 1000 1000
     = Ok st /\
     TaskStorage.saveTasks empty_store (value_of_tasks (tasks st))
     = Ok (localStorage st, true) /\
     TaskStorage.getTasks (localStorage st) <> Ok (value_of_tasks (tasks st))) /\
  (let tasks :=
     [ {| id := lit "1000"; title := lit "Buy milk"; description := [];
          completed := false;
          createdAt := DateString (lit "1970-01-01T00:00:01.000Z") |} ] in
   TaskStorage.saveTasks full_store (value_of_tasks tasks) = Ok (full_store, false) /\
   TaskStorage.getTasks full_store <> Ok (value_of_tasks tasks)).
Proof.
  split.
  - eexists. split; [vm_compute; reflexivity|].
    split; [vm_compute; reflexivity|]. vm_compute. discriminate.
  - split; [vm_compute; reflexivity|]. vm_compute. discriminate.
Qed.

(** C2 (amended).  When [saveTasks] reports success, [getTasks] on the
    resulting store returns a list of the same length whose tasks have the
    id, title, description and completed flag of the saved ones; createdAt
    is the saved string, or, for a saved [Date], the text [toISOString]
    gives for it.  A list without [Date]s comes back equal. *)
Theorem saveTasks_getTasks_round_trip (ls ls' : Storage) (tasks : list Task) :
  TaskStorage.saveTasks ls (value_of_tasks tasks) = Ok (ls', true) ->
  (exists tasks',
     TaskStorage.getTasks ls' = Ok (value_of_tasks tasks') /\
     Forall2 (fun task task' =>
                id task' = id task /\ title task' = title task /\
                description task' = description task /\
                completed task' = completed task /\
                createdAt task' =
                  match createdAt task with
                  | DateObject t => DateString (toISOString t)
                  | DateString s => DateString s
                  end) tasks tasks') /\
  (Forall (fun task => exists s, createdAt task = DateString s) tasks ->
   TaskStorage.getTasks ls' = Ok (value_of_tasks tasks)).
Proof.
  intros Hsave.
  apply saveTasks_result in Hsave as [[_ Hset] | [Hfalse _]]; [|discriminate].
  rewrite <- stringify_revived in Hset.
  destruct (stored_exact_parses _ _ _ _ (exact_revived tasks) Hset) as [Ht Hp].
  assert (Hget : TaskStorage.getTasks ls' = Ok (value_of_tasks (map revived tasks))).
  { unfold TaskStorage.getTasks. rewrite Ht. exact Hp. }
  split.
  - exists (map revived tasks). split; [exact Hget|].
    clear. induction tasks as [|task tasks IH]; cbn [map]; constructor;
      [apply revived_fields | exact IH].
  - intros Hstr. rewrite Hget.
    assert (Hsame : map revived tasks = tasks).
    { clear -Hstr. induction Hstr as [|task tasks [s Hs] _ IH]; [reflexivity|].
      cbn [map]. rewrite IH. f_equal.
      destruct task as [i t d c ts]. cbn in Hs. subst ts. reflexivity. }
    rewrite Hsame. reflexivity.
Qed.

Lemma saveTasks_getTasks_round_trip_witness :
  let tasks :=
    [ {| id := lit "1000"; title := lit "Buy milk"; description := [];
         completed := false; createdAt := DateObject 1000 |} ] in
  let ls' :=
    match TaskStorage.saveTasks empty_store (value_of_tasks tasks) with
    | Ok (ls', _) => ls'
    | Throw _ => empty_store
    end in
  TaskStorage.saveTasks empty_store (value_of_tasks tasks) = Ok (ls', true) /\
  exists tasks',
    TaskStorage.getTasks ls' = Ok (value_of_tasks tasks') /\
    Forall2 (fun task task' =>
               id task' = id task /\ title task' = title task /\
               description task' = description task /\
               completed task' = completed task /\
               createdAt task' =
                 match createdAt task with
                 | DateObject t => DateString (toISOString t)
                 | DateString s => DateString s
                 end) tasks tasks'.
Proof.
  intros tasks ls'.
  assert (Hsave : TaskStorage.saveTasks empty_store (value_of_tasks tasks)
                  = Ok (ls', true)) by (vm_compute; reflexivity).
  split; [exact Hsave|].
  exact (proj1 (saveTasks_getTasks_round_trip empty_store ls' tasks Hsave)).
Defined.

(** C6, as stated, fails in three ways.  A value that JSON does not carry
    over, here a [Date], comes back as a string.  The key [__proto__] is
    not stored at all.  And on a store with no room left the write fails,
    [updatePreference] returns [false], and the preference is what it
    was. *)
Lemma updatePreference_not_preserved :
  (exists ls' preferences,
     TaskStorage.updatePreference empty_store (lit "darkMode") (VDate 0)
     = Ok (ls', true) /\
     TaskStorage.getPreferences ls' = Ok (VObj preferences) /\
     get_own preferences (lit "darkMode") <> Some (VDate 0)) /\
  (exists ls' preferences,
     TaskStorage.updatePreference empty_store (lit "__proto__") (VBool false)
     = Ok (ls', true) /\
     TaskStorage.getPreferences ls' = Ok (VObj preferences) /\
     get_own preferences (lit "__proto__") <> Some (VBool false)) /\
  (exists preferences,
     TaskStorage.updatePreference full_store (lit "darkMode") (VBool false)
     = Ok (full_store, false) /\
     TaskStorage.getPreferences full_store = Ok (VObj preferences) /\
     get_own preferences (lit "darkMode") <> Some (VBool false)).
Proof.
  split; [|split].
  - eexists _, _. split; [vm_compute; reflexivity|].
    split; [vm_compute; reflexivity|]. vm_compute. discriminate.
  - eexists _, _. split; [vm_compute; reflexivity|].
    split; [vm_compute; reflexivity|]. vm_compute. discriminate.
  - eexists. split; [vm_compute; reflexivity|].
    split; [vm_compute; reflexivity|]. vm_compute. discriminate.
Qed.

(** C6 (amended).  Let the stored preferences be an object of exact values
    (or the defaults, when nothing usable is stored), [key] any key but
    [__proto__], and [v] an exact value: [null], a boolean, a string, or an
    array or object of such.  When [updatePreference key v] reports
    success, [getPreferences] on the resulting store returns an object in
    which [key] has the value [v] and every other key has what it had. *)
Theorem updatePreference_getPreferences
    (ls ls' : Storage) (preferences : list (jsstring * value))
    (key : jsstring) (v : value) :
  TaskStorage.getPreferences ls = Ok (VObj preferences) ->
  JSON.exact (VObj preferences) = true ->
  JSON.exact v = true ->
  key <> lit "__proto__" ->
  TaskStorage.updatePreference ls key v = Ok (ls', true) ->
  exists preferences',
    TaskStorage.getPreferences ls' = Ok (VObj preferences') /\
    get_own preferences' key = Some v /\
    forall key', key' <> key -> get_own preferences' key' = get_own preferences key'.
Proof.
  intros Hget Hexp Hexv Hkey Hupd.
  unfold TaskStorage.updatePreference in Hupd. rewrite Hget in Hupd.
  cbn [mbind outcome_bind] in Hupd. rewrite assign_object in Hupd by exact Hkey.
  apply savePreferences_result in Hupd as [[_ Hset] | [Hfalse _]]; [|discriminate].
  pose proof (exact_define_own preferences key v Hexp Hexv) as Hex'.
  destruct (stored_exact_parses _ _ _ _ Hex' Hset) as [Ht Hp].
  exists (define_own preferences key v). split; [|split].
  - unfold TaskStorage.getPreferences, try_catch. rewrite Ht, Hp. reflexivity.
  - apply get_own_define_own.
  - intros key' Hne. apply get_own_define_own_ne. exact Hne.
Qed.

Lemma updatePreference_getPreferences_witness :
  let ls :=
    {| items := {[ TaskStorage.preferenceKey :=
                     lit "{`darkMode`:true,`accentColor`:`mint`,`hideCompleted`:true}" ]};
       quota := 5000000 |} in
  let preferences :=
    [(lit "darkMode", VBool true); (lit "accentColor", VStr (lit "mint"));
     (lit "hideCompleted", VBool true)] in
  let ls' :=
    match TaskStorage.updatePreference ls (lit "darkMode") (VBool false) with
    | Ok (ls', _) => ls'
    | Throw _ => ls
    end in
  exists preferences',
    TaskStorage.getPreferences ls' = Ok (VObj preferences') /\
    get_own preferences' (lit "darkMode") = Some (VBool false) /\
    forall key', key' <> lit "darkMode" ->
      get_own preferences' key' = get_own preferences key'.
Proof.
  intros ls preferences ls'.
  apply (updatePreference_getPreferences ls ls' preferences (lit "darkMode") (VBool false)).
  - vm_compute. reflexivity.
  - vm_compute. reflexivity.
  - reflexivity.
  - vm_compute. discriminate.
  - vm_compute. reflexivity.
Defined.

(** ** Ids *)

Lemma Number_toString_inj n m :
  Number_toString n = Number_toString m -> n = m.
Proof.
  unfold Number_toString. intros H.
  assert (Hs : NilZero.string_of_int (Z.to_int n) = NilZero.string_of_int (Z.to_int m)).
  { rewrite <- (string_of_list_ascii_of_string (NilZero.string_of_int (Z.to_int n))).
    rewrite <- (string_of_list_ascii_of_string (NilZero.string_of_int (Z.to_int m))).
    f_equal. revert H.
    generalize (list_ascii_of_string (NilZero.string_of_int (Z.to_int n))).
    generalize (list_ascii_of_string (NilZero.string_of_int (Z.to_int m))).
    intros l2 l1. revert l2.
    induction l1 as [|a l1 IH]; intros [|b l2] H; try discriminate; [reflexivity|].
    cbn [map] in H. inversion H as [[Hab Hl]].
    f_equal; [|apply IH; exact Hl].
    rewrite <- (ascii_N_embedding a), <- (ascii_N_embedding b), Hab. reflexivity. }
  assert (Hnn : forall z, Z.to_int z <> Decimal.Pos Decimal.Nil /\
                          Z.to_int z <> Decimal.Neg Decimal.Nil).
  { intros [|p|p]; cbn [Z.to_int]; split; try discriminate;
      intros Hp; inversion Hp as [Hp']; exact (Unsigned.to_uint_nonnil p Hp'). }
  apply to_int_inj.
  pose proof (NilZero.isi (Z.to_int n) (proj1 (Hnn n)) (proj2 (Hnn n))) as H1.
  pose proof (NilZero.isi (Z.to_int m) (proj1 (Hnn m)) (proj2 (Hnn m))) as H2.
  rewrite Hs in H1. rewrite H1 in H2. inversion H2. reflexivity.
Qed.

(** ** The controller *)

Lemma TaskManager_saveTasks_ok st :
  exists ls', TaskManager.saveTasks st = Ok (with_localStorage st ls').
Proof.
  unfold TaskManager.saveTasks.
  destruct (saveTasks_total (localStorage st) (value_of_tasks (tasks st)))
    as (ls' & ok & Hs).
  rewrite Hs. exists ls'. reflexivity.
Qed.

(** [createTask] returns, with the new task in front. *)
Lemma createTask_ok st title description now date :
  exists st',
    TaskManager.createTask st title description now date = Ok st' /\
    tasks st' =
      {| id := Number_toString now; title := trim title;
         description := trim description; completed := false;
         createdAt := DateObject date |} :: tasks st.
Proof.
  unfold TaskManager.createTask.
  destruct (TaskManager_saveTasks_ok
              (with_tasks st ({| id := Number_toString now; title := trim title;
                                 description := trim description; completed := false;
                                 createdAt := DateObject date |} :: tasks st)))
    as [ls' Hs].
  rewrite Hs. cbn [mbind outcome_bind]. eexists. split; reflexivity.
Qed.

(** C5, as stated, fails on the id: when the clock reads what it read for
    a task already in the list, the new task carries that task's id. *)
Lemma createTask_id_not_fresh :
  let st := run (blank_page empty_store) [Submit (lit "Buy milk") [] 1000 1000] in
  exists st' task,
    TaskManager.createTask st (lit "Call Bob") [] 1000 1001 = Ok st' /\
    tasks st' = task :: tasks st /\
    id task ∈ map id (tasks st).
Proof.
  eexists _, _. split; [vm_compute; reflexivity|].
  split; [vm_compute; reflexivity|].
  vm_compute. apply list_elem_of_here.
Qed.

(** C5 (amended).  For a title that is not blank, [createTask] returns and
    puts in front of the list, which it leaves as it was, a task with the
    trimmed title and description, not completed, whose id is the decimal
    text of the clock reading; that id is fresh whenever every id in the
    list is the text of an earlier reading. *)
Theorem createTask_prepends
    (st : State) (title description : jsstring) (now date : Z) :
  trim title <> [] ->
  exists st',
    TaskManager.createTask st title description now date = Ok st' /\
    tasks st' =
      {| id := Number_toString now; title := trim title;
         description := trim description; completed := false;
         createdAt := DateObject date |} :: tasks st /\
    (Forall (fun task => exists earlier,
               id task = Number_toString earlier /\ (earlier < now)%Z) (tasks st) ->
     Number_toString now ∉ map id (tasks st)).
Proof.
  intros _.
  destruct (createTask_ok st title description now date) as (st' & Hc & Ht).
  exists st'. split; [exact Hc|]. split; [exact Ht|].
  intros Hearlier Hin. apply list_elem_of_fmap in Hin as (task & Hid & Hin).
  rewrite Forall_forall in Hearlier.
  destruct (Hearlier task Hin) as (earlier & He & Hlt).
  rewrite He in Hid. apply Number_toString_inj in Hid. lia.
Qed.

Lemma createTask_prepends_witness :
  trim (lit "  Buy milk  ") <> [] /\
  exists st',
    TaskManager.createTask (blank_page empty_store) (lit "  Buy milk  ") [] 1000 1000
    = Ok st' /\
    tasks st' =
      [ {| id := lit "1000"; title := lit "Buy milk"; description := [];
           completed := false; createdAt := DateObject 1000 |} ].
Proof.
  assert (Hne : trim (lit "  Buy milk  ") <> []) by (vm_compute; discriminate).
  split; [exact Hne|].
  destruct (createTask_prepends (blank_page empty_store) (lit "  Buy milk  ") []
              1000 1000 Hne) as (st' & Hc & Ht & _).
  exists st'. split; [exact Hc|]. rewrite Ht. vm_compute. reflexivity.
Defined.

(** *** What each operation does to the task list *)

Lemma toggleTaskCompletion_ok st taskId :
  exists st',
    TaskManager.toggleTaskCompletion st taskId = Ok st' /\
    map id (tasks st') = map id (tasks st).
Proof.
  unfold TaskManager.toggleTaskCompletion.
  destruct (list_find _ (tasks st)) as [[i task]|] eqn:Hfind; [|eauto].
  destruct (TaskManager_saveTasks_ok
              (with_tasks st (<[i := TaskManager.toggled task]> (tasks st)))) as [ls' Hs].
  rewrite Hs. cbn [mbind outcome_bind]. eexists. split; [reflexivity|].
  cbn [tasks TaskManager.showNotification setTimeout with_timers
       with_notification with_localStorage with_tasks].
  apply list_find_Some in Hfind as (Hi & _ & _).
  rewrite list_fmap_insert. apply list_insert_id.
  rewrite list_lookup_fmap, Hi. reflexivity.
Qed.

Lemma deleteTask_tasks st taskId engine st' :
  TaskManager.deleteTask st taskId engine = Ok st' -> tasks st' = tasks st.
Proof.
  unfold TaskManager.deleteTask.
  destruct (querySelector _ _ _) as [[[i|]|]|e]; cbn [mbind outcome_bind];
    intros H; inversion H; reflexivity.
Qed.

Lemma hideCompletedChanged_tasks st checked st' :
  TaskManager.hideCompletedChanged st checked = Ok st' -> tasks st' = tasks st.
Proof.
  unfold TaskManager.hideCompletedChanged.
  destruct (TaskStorage.updatePreference _ _ _) as [r|e]; cbn [mbind outcome_bind];
    intros H; inversion H; reflexivity.
Qed.

Lemma run_callback_tasks st callback :
  exists st',
    TaskManager.run_callback st callback = Ok st' /\
    tasks st' =
      match callback with
      | RemoveTask taskId =>
          List.filter (fun task => negb (bool_decide (id task = taskId))) (tasks st)
      | _ => tasks st
      end.
Proof.
  destruct callback as [taskId| |]; cbn [TaskManager.run_callback]; [|eauto|eauto].
  destruct (TaskManager_saveTasks_ok
              (with_tasks st (List.filter
                 (fun task => negb (bool_decide (id task = taskId))) (tasks st))))
    as [ls' Hs].
  rewrite Hs. cbn [mbind outcome_bind]. eexists. split; reflexivity.
Qed.

(** Every event leaves the ids of the list as they are, removes some, or,
    for a submission that reaches [createTask], adds the text of the clock
    reading in front. *)
Lemma handle_ids st e :
  (exists title description now date,
     e = Submit title description now date /\ trim title <> [] /\
     map id (tasks (handle st e)) = Number_toString now :: map id (tasks st))
  \/ (readings [e] = [] /\ map id (tasks (handle st e)) `sublist_of` map id (tasks st)).
Proof.
  destruct e as [title description now date | taskId | taskId engine | filter
                 | checked | n];
    cbn [handle readings].
  - destruct (trim title) as [|c r] eqn:Htrim.
    + right. split; reflexivity.
    + left. exists title, description, now, date.
      split; [reflexivity|]. split; [rewrite Htrim; discriminate|].
      destruct (createTask_ok st title description now date) as (st' & Hc & Ht).
      rewrite Hc. cbn [settle]. rewrite Ht. reflexivity.
  - right. split; [reflexivity|].
    destruct (toggleTaskCompletion_ok st taskId) as (st' & Hc & Ht).
    rewrite Hc. cbn [settle]. rewrite Ht. reflexivity.
  - right. split; [reflexivity|].
    destruct (TaskManager.deleteTask st taskId engine) as [st'|err] eqn:Hd;
      cbn [settle]; [|reflexivity].
    rewrite (deleteTask_tasks _ _ _ _ Hd). reflexivity.
  - right. split; reflexivity.
  - right. split; [reflexivity|].
    destruct (TaskManager.hideCompletedChanged st checked) as [st'|err] eqn:Hd;
      cbn [settle]; [|reflexivity].
    rewrite (hideCompletedChanged_tasks _ _ _ Hd). reflexivity.
  - right. split; [reflexivity|].
    destruct (timers st !! n) as [[delay callback]|]; [|reflexivity].
    destruct (run_callback_tasks (with_timers st (delete n (timers st))) callback)
      as (st' & Hc & Ht).
    rewrite Hc. cbn [settle]. rewrite Ht.
    destruct callback; try reflexivity.
    cbn [tasks with_timers]. apply fmap_sublist.
    clear. induction (tasks st) as [|task l IH]; cbn [List.filter]; [reflexivity|].
    destruct (negb _); [apply sublist_skip|apply sublist_cons]; exact IH.
Qed.

(** C3, as stated, fails: two submissions for which the clock gives the
    same reading leave two tasks with one id.  Seen from the list the
    first submission leaves, whose one task has the id 1000: a single
    further submission, for which the clock reads 1000 again, is enough. *)
Lemma ids_not_unique_same_reading :
  ~ NoDup (map id (tasks (run (blank_page empty_store)
                            [Submit (lit "Buy milk") [] 1000 1000;
                             Submit (lit "Call Bob") [] 1000 1001]))) /\
  (let st := run (blank_page empty_store) [Submit (lit "Buy milk") [] 1000 1000] in
   map id (tasks st) = [lit "1000"] /\
   readings [Submit (lit "Call Bob") [] 1000 1001] = [1000%Z] /\
   ~ NoDup (map id (tasks (run st [Submit (lit "Call Bob") [] 1000 1001])))).
Proof.
  assert (Hdup : ~ NoDup [lit "1000"; lit "1000"]).
  { intros H. apply NoDup_cons in H as [Hnin _]. apply Hnin. apply list_elem_of_here. }
  split; [|split; [|split]].
  - intros H. vm_compute in H. exact (Hdup H).
  - vm_compute. reflexivity.
  - vm_compute. reflexivity.
  - intros H. vm_compute in H. exact (Hdup H).
Qed.

(** C3 (amended).  Start from any list in which no two tasks share an
    id.  After any events (submissions, clicks on checkboxes, delete and
    filter buttons, changes of the toggle, timers that fire), no two tasks
    share an id, provided the clock gives the submissions that reach
    [createTask] pairwise distinct readings, none of which has for its
    decimal text the id of a task of the starting list. *)
Theorem ids_unique_distinct_readings (st : State) (events : list Event) :
  NoDup (map id (tasks st)) ->
  NoDup (readings events) ->
  Forall (fun now => Number_toString now ∉ map id (tasks st)) (readings events) ->
  NoDup (map id (tasks (run st events))).
Proof.
  revert st.
  induction events as [|e events IH]; intros st Hnd Hdistinct Hfresh; [exact Hnd|].
  cbn [run fold_left].
  assert (Hcons : readings (e :: events) = readings [e] ++ readings events).
  { destruct e as [t d n dt| | | | |]; cbn [readings app]; try reflexivity.
    destruct (trim t); reflexivity. }
  destruct (handle_ids st e) as [(t & d & now & date & -> & Hne & Hids) | [Hr Hsub]].
  - cbn [readings] in Hdistinct, Hfresh.
    destruct (trim t) as [|c r]; [congruence|].
    apply NoDup_cons in Hdistinct as [Hnow Hdistinct].
    apply Forall_cons in Hfresh as [Hfnow Hfresh].
    apply IH; [|exact Hdistinct|].
    + rewrite Hids. apply NoDup_cons. split; assumption.
    + rewrite Hids. rewrite Forall_forall in Hfresh |- *.
      intros n Hn Hin. apply elem_of_cons in Hin as [Heq|Hin].
      * apply Number_toString_inj in Heq. subst n. contradiction.
      * exact (Hfresh n Hn Hin).
  - rewrite Hcons, Hr in Hdistinct, Hfresh. cbn [app] in Hdistinct, Hfresh.
    apply IH; [|exact Hdistinct|].
    + eapply sublist_NoDup; [exact Hnd|exact Hsub].
    + eapply Forall_impl; [exact Hfresh|].
      intros n Hn Hin. apply Hn. eapply elem_of_sublist; [exact Hin|exact Hsub].
Qed.

Lemma ids_unique_distinct_readings_witness :
  let st := run (blank_page empty_store) [Submit (lit "Buy milk") [] 1000 1000] in
  let events :=
    [ClickCheckbox (lit "1000");
     Submit (lit "Call Bob") [] 999 999;
     Submit (lit "Pay rent") [] 1001 1001;
     ClickDelete (lit "1000") (Returns None);
     TimerFires 0; TimerFires 0; TimerFires 0] in
  map id (tasks st) = [lit "1000"] /\
  readings events = [999; 1001]%Z /\
  NoDup (map id (tasks (run st events))).
Proof.
  intros st events.
  split; [vm_compute; reflexivity|]. split; [vm_compute; reflexivity|].
  apply ids_unique_distinct_readings.
  - apply (bool_decide_unpack _). vm_compute. exact I.
  - apply (bool_decide_unpack _). vm_compute. exact I.
  - apply (bool_decide_unpack _). vm_compute. exact I.
Defined.

(** ** Filtering *)

Lemma kept_filter {A : Type} (f : A -> bool) (P : A -> Prop) (l : list A) :
  (forall x, f x = true <-> P x) -> kept P l (List.filter f l).
Proof.
  intros Hf. induction l as [|x l IH]; cbn [List.filter]; [constructor|].
  destruct (f x) eqn:Hx.
  - apply kept_cons; [apply Hf; exact Hx | exact IH].
  - apply kept_skip; [|exact IH]. intros HP. apply Hf in HP. congruence.
Qed.

(** C4.  [filterTasks] reads the state and returns a list: under the
    filter active, the tasks that are not completed; under completed, the
    completed ones; under all, the tasks that are not completed when the
    hide-completed toggle is checked, and the whole list otherwise; each
    time in the order of the list. *)
Theorem filterTasks_spec (st : State) :
  (currentFilter st = lit "active" ->
   kept (fun task => completed task = false) (tasks st) (TaskManager.filterTasks st)) /\
  (currentFilter st = lit "completed" ->
   kept (fun task => completed task = true) (tasks st) (TaskManager.filterTasks st)) /\
  (currentFilter st = lit "all" -> hideCompletedToggle_checked st = true ->
   kept (fun task => completed task = false) (tasks st) (TaskManager.filterTasks st)) /\
  (currentFilter st = lit "all" -> hideCompletedToggle_checked st = false ->
   TaskManager.filterTasks st = tasks st).
Proof.
  unfold TaskManager.filterTasks. repeat split.
  - intros ->. cbn. apply kept_filter. intros task. destruct (completed task); cbn; intuition congruence.
  - intros ->. cbn. apply kept_filter. intros task. reflexivity.
  - intros -> ->. cbn. apply kept_filter. intros task. destruct (completed task); cbn; intuition congruence.
  - intros -> ->. reflexivity.
Qed.

Lemma filterTasks_spec_witness :
  let A := {| id := lit "2"; title := lit "A"; description := [];
              completed := false; createdAt := DateObject 2 |} in
  let B := {| id := lit "1"; title := lit "B"; description := [];
              completed := true; createdAt := DateObject 1 |} in
  let page filter hide :=
    with_checked (with_currentFilter (with_tasks (blank_page empty_store) [A; B]) filter)
      hide in
  kept (fun task => completed task = false) [A; B]
    (TaskManager.filterTasks (page (lit "active") false)) /\
  kept (fun task => completed task = true) [A; B]
    (TaskManager.filterTasks (page (lit "completed") false)) /\
  kept (fun task => completed task = false) [A; B]
    (TaskManager.filterTasks (page (lit "all") true)) /\
  TaskManager.filterTasks (page (lit "all") false) = [A; B].
Proof.
  intros A B page. split; [|split; [|split]].
  - apply (proj1 (filterTasks_spec (page (lit "active") false))). reflexivity.
  - apply (proj1 (proj2 (filterTasks_spec (page (lit "completed") false)))).
    reflexivity.
  - apply (proj1 (proj2 (proj2 (filterTasks_spec (page (lit "all") true)))));
      reflexivity.
  - apply (proj2 (proj2 (proj2 (filterTasks_spec (page (lit "all") false)))));
      reflexivity.
Defined.

(** The example of the specification: an active task A and a completed
    task B under the four settings. *)
Example filterTasks_A_B :
  let A := {| id := lit "2"; title := lit "A"; description := [];
              completed := false; createdAt := DateObject 2 |} in
  let B := {| id := lit "1"; title := lit "B"; description := [];
              completed := true; createdAt := DateObject 1 |} in
  let page filter hide :=
    with_checked (with_currentFilter (with_tasks (blank_page empty_store) [A; B]) filter)
      hide in
  TaskManager.filterTasks (page (lit "active") false) = [A] /\
  TaskManager.filterTasks (page (lit "completed") false) = [B] /\
  TaskManager.filterTasks (page (lit "all") true) = [A] /\
  TaskManager.filterTasks (page (lit "all") false) = [A; B].
Proof. repeat split. Qed.

(** ** Deleting *)

Lemma css_string_plain taskId rest :
  forallb css_string_unit taskId = true ->
  css_string (taskId ++ 34 :: rest) = Some (taskId, rest).
Proof.
  induction taskId as [|c r IH]; cbn [forallb app css_string]; [reflexivity|].
  intros H. apply andb_true_iff in H as [Hc Hr].
  destruct (N.eqb_spec c 34) as [->|_]; [discriminate|].
  rewrite Hc, (IH Hr). reflexivity.
Qed.

Lemma strip_prefix_app p s : JSON.strip_prefix p (p ++ s) = Some s.
Proof.
  induction p as [|c p IH]; cbn [JSON.strip_prefix app]; [reflexivity|].
  rewrite N.eqb_refl. exact IH.
Qed.

Lemma parse_selector_unfold taskId :
  parse_selector (lit ".task-item[data-id=`" ++ taskId ++ lit "`]") =
  match css_string (taskId ++ 34 :: lit "]") with
  | Some (v, rest) =>
      if decide (rest = lit "]") then AttributeTest v
      else match rest with
           | c :: _ => if c =? 34 then NoSelector else NotRead
           | [] => NotRead
           end
  | None => NotRead
  end.
Proof. unfold parse_selector. rewrite strip_prefix_app. reflexivity. Qed.

(** For an id without quotes, backslashes, line breaks, NUL and surrogates
    the selector is the attribute test on that id, whatever the engine
    would say of other texts. *)
Lemma querySelector_plain doc taskId engine :
  forallb css_string_unit taskId = true ->
  querySelector doc (lit ".task-item[data-id=`" ++ taskId ++ lit "`]") engine
  = Ok ((fun found => ListItem (fst found)) <$> list_find (matches taskId) doc).
Proof.
  intros Hplain. unfold querySelector. rewrite parse_selector_unfold.
  rewrite css_string_plain by exact Hplain.
  destruct (decide (lit "]" = lit "]")); [reflexivity|congruence].
Qed.

(** C9 (code bug).  The id goes into the selector text as it is.  With the
    id [`] (one double quote) the text is [.task-item[data-id=```]], which
    is not a selector: [querySelector] throws [SyntaxError], and so does
    [deleteTask], in any state, whether or not a task has that id. *)
Theorem deleteTask_quote_throws (st : State) (engine : Engine) :
  TaskManager.deleteTask st (lit "`") engine = Throw SyntaxError.
Proof. reflexivity. Qed.

(** Apart from that, deleting an id that no task has changes nothing in the
    list, neither at once nor when the timer it may have set fires. *)
Lemma deleteTask_absent_id st taskId engine :
  taskId ∉ map id (tasks st) ->
  tasks (settle st (TaskManager.deleteTask st taskId engine)) = tasks st /\
  forall st', tasks st' = tasks st ->
    exists st'', TaskManager.run_callback st' (RemoveTask taskId) = Ok st'' /\
                 tasks st'' = tasks st.
Proof.
  intros Habsent. split.
  - destruct (TaskManager.deleteTask st taskId engine) as [st'|e] eqn:Hd;
      [|reflexivity].
    exact (deleteTask_tasks _ _ _ _ Hd).
  - intros st' Hsame.
    destruct (run_callback_tasks st' (RemoveTask taskId)) as (st'' & Hc & Ht).
    exists st''. split; [exact Hc|]. rewrite Ht, Hsame.
    clear -Habsent. revert Habsent. generalize (tasks st). intros l.
    induction l as [|task l IH]; intros Habsent; [reflexivity|].
    cbn [map] in Habsent. apply not_elem_of_cons in Habsent as [Hne Hl].
    cbn [List.filter]. rewrite bool_decide_eq_false_2 by congruence.
    cbn [negb]. rewrite (IH Hl). reflexivity.
Qed.

(** C10.  For every id, and whatever the selector engine answers for the
    text the id gives: when [querySelector] finds no element, [deleteTask]
    changes nothing and returns the state as it is: the list, the store,
    the notification, the rendered elements and the pending timers are what
    they were, whether or not a task of the list has that id.  Also when
    the call throws instead, the page after the click is the page before
    it.  No element is found, in particular, for an id as [createTask]
    makes them which no rendered element carries, such as the id of a task
    the filter hides. *)
Theorem deleteTask_no_element (st : State) (taskId : jsstring) (engine : Engine) :
  (querySelector (taskList st) (lit ".task-item[data-id=`" ++ taskId ++ lit "`]")
     engine = Ok None ->
   TaskManager.deleteTask st taskId engine = Ok st) /\
  ((forall element,
      querySelector (taskList st) (lit ".task-item[data-id=`" ++ taskId ++ lit "`]")
        engine <> Ok (Some element)) ->
   handle st (ClickDelete taskId engine) = st) /\
  (forallb css_string_unit taskId = true ->
   Forall (fun el => dataset_id el <> taskId) (taskList st) ->
   TaskManager.deleteTask st taskId engine = Ok st).
Proof.
  unfold handle, TaskManager.deleteTask. split; [|split].
  - intros Hq. rewrite Hq. reflexivity.
  - intros Hq.
    destruct (querySelector _ _ _) as [[element|]|e]; cbn [mbind outcome_bind settle];
      [|reflexivity|reflexivity].
    exfalso. exact (Hq element eq_refl).
  - intros Hplain Hnone. rewrite querySelector_plain by exact Hplain.
    assert (Hfind : list_find (matches taskId) (taskList st) = None).
    { apply list_find_None. eapply Forall_impl; [exact Hnone|].
      intros el Hne [_ Heq]. contradiction. }
    rewrite Hfind. reflexivity.
Qed.

Lemma deleteTask_no_element_witness :
  let st :=
    run (blank_page empty_store)
      [Submit (lit "Buy milk") [] 1000 1000;
       Submit (lit "Call Bob") [] 1001 1001;
       ClickCheckbox (lit "1000");
       ClickFilter (lit "active")] in
  lit "1000" ∈ map id (tasks st) /\
  map dataset_id (taskList st) = [lit "1001"] /\
  TaskManager.deleteTask st (lit "1000") (Returns None) = Ok st /\
  TaskManager.deleteTask st (lit "x`],[data-x=`") (Returns None) = Ok st /\
  handle st (ClickDelete (lit "`") (Returns None)) = st.
Proof.
  intros st.
  split; [|split; [|split; [|split]]].
  - vm_compute. apply list_elem_of_further, list_elem_of_here.
  - vm_compute. reflexivity.
  - apply (proj2 (proj2 (deleteTask_no_element st (lit "1000") (Returns None)))).
    + vm_compute. reflexivity.
    + vm_compute. repeat constructor. discriminate.
  - apply (proj1 (deleteTask_no_element st (lit "x`],[data-x=`") (Returns None))).
    vm_compute. reflexivity.
  - apply (proj1 (proj2 (deleteTask_no_element st (lit "`") (Returns None)))).
    intros element. vm_compute. discriminate.
Defined.

(** ** Markup *)

Lemma escapeHtml_cons c t :
  TaskManager.escapeHtml (c :: t) = escape_unit c ++ TaskManager.escapeHtml t.
Proof. reflexivity. Qed.

Lemma escape_unit_cases c :
  (c = 38 /\ escape_unit c = lit "&amp;") \/
  (c = 160 /\ escape_unit c = lit "&nbsp;") \/
  (c = 60 /\ escape_unit c = lit "&lt;") \/
  (c = 62 /\ escape_unit c = lit "&gt;") \/
  (c <> 38 /\ c <> 60 /\ c <> 62 /\ c <> 160 /\ escape_unit c = [c]).
Proof.
  unfold escape_unit.
  destruct (N.eqb_spec c 38); [auto|].
  destruct (N.eqb_spec c 160); [auto|].
  destruct (N.eqb_spec c 60); [auto 6|].
  destruct (N.eqb_spec c 62); [auto 6|].
  auto 10.
Qed.

(** The escaped text has no angle bracket in it. *)
Lemma escapeHtml_no_bracket t c :
  c ∈ TaskManager.escapeHtml t -> c <> 60 /\ c <> 62.
Proof.
  induction t as [|d t IH]; [intros H; inversion H|].
  rewrite escapeHtml_cons. intros H. apply elem_of_app in H as [H|H]; [|auto].
  destruct (escape_unit_cases d) as [[_ E]|[[_ E]|[[_ E]|[[_ E]|(?&?&?&?&E)]]]];
    rewrite E in H; vm_compute in H;
    repeat (apply elem_of_cons in H as [->|H]; [split; discriminate|]);
    try (inversion H; fail).
  apply list_elem_of_singleton in H. subst c. split; assumption.
Qed.

Lemma decode_text_reference rest :
  decode_text_from 0 (lit "&amp;" ++ rest) = 38 :: decode_text_from 0 rest /\
  decode_text_from 0 (lit "&nbsp;" ++ rest) = 160 :: decode_text_from 0 rest /\
  decode_text_from 0 (lit "&lt;" ++ rest) = 60 :: decode_text_from 0 rest /\
  decode_text_from 0 (lit "&gt;" ++ rest) = 62 :: decode_text_from 0 rest.
Proof. repeat split. Qed.

(** Decoding the references gives the text back. *)
Lemma decode_text_escapeHtml t :
  decode_text (TaskManager.escapeHtml t) = t.
Proof.
  unfold decode_text. induction t as [|c t IH]; [reflexivity|].
  rewrite escapeHtml_cons.
  destruct (escape_unit_cases c) as [[-> E]|[[-> E]|[[-> E]|[[-> E]|(?&?&?&?&E)]]]];
    rewrite E.
  - rewrite (proj1 (decode_text_reference _)), IH. reflexivity.
  - rewrite (proj1 (proj2 (decode_text_reference _))), IH. reflexivity.
  - rewrite (proj1 (proj2 (proj2 (decode_text_reference _)))), IH. reflexivity.
  - rewrite (proj2 (proj2 (proj2 (decode_text_reference _)))), IH. reflexivity.
  - cbn [app decode_text_from].
    destruct (N.eqb_spec c 38); [contradiction|]. rewrite IH. reflexivity.
Qed.

Lemma normalize_reference rest :
  normalize (lit "&amp;" ++ rest) = lit "&amp;" ++ normalize rest /\
  normalize (lit "&nbsp;" ++ rest) = lit "&nbsp;" ++ normalize rest /\
  normalize (lit "&lt;" ++ rest) = lit "&lt;" ++ normalize rest /\
  normalize (lit "&gt;" ++ rest) = lit "&gt;" ++ normalize rest.
Proof. repeat split. Qed.

Lemma normalize_cons c r :
  c <> 13 -> c <> 0 -> normalize (c :: r) = c :: normalize r.
Proof.
  intros H13 H0. cbn [normalize].
  destruct (N.eqb_spec c 13); [contradiction|].
  destruct (N.eqb_spec c 0); [contradiction|]. reflexivity.
Qed.

Lemma normalize_escape_unit c rest :
  c <> 13 -> c <> 0 ->
  normalize (escape_unit c ++ rest) = escape_unit c ++ normalize rest.
Proof.
  intros H13 H0.
  destruct (escape_unit_cases c) as [[_ E]|[[_ E]|[[_ E]|[[_ E]|(?&?&?&?&E)]]]];
    rewrite E.
  - apply normalize_reference.
  - apply normalize_reference.
  - apply normalize_reference.
  - apply normalize_reference.
  - cbn [app]. apply normalize_cons; assumption.
Qed.

(** Normalizing commutes with escaping. *)
Lemma normalize_escapeHtml t :
  normalize (TaskManager.escapeHtml t) = TaskManager.escapeHtml (normalize t).
Proof.
  remember (length t) as n eqn:Hn. revert t Hn.
  induction n as [n IH] using lt_wf_ind. intros t Hn.
  destruct t as [|c r]; [reflexivity|]. cbn [length] in Hn.
  destruct (N.eq_dec c 13) as [->|H13].
  - change (TaskManager.escapeHtml (13 :: r)) with (13 :: TaskManager.escapeHtml r).
    destruct r as [|d r'].
    + reflexivity.
    + destruct (N.eq_dec d 10) as [->|H10].
      * change (TaskManager.escapeHtml (10 :: r')) with (10 :: TaskManager.escapeHtml r').
        change (normalize (13 :: 10 :: TaskManager.escapeHtml r'))
          with (10 :: normalize (TaskManager.escapeHtml r')).
        change (normalize (13 :: 10 :: r')) with (10 :: normalize r').
        rewrite (IH (length r') ltac:(cbn [length] in Hn; lia) r' eq_refl).
        reflexivity.
      * assert (Hl : normalize (13 :: TaskManager.escapeHtml (d :: r'))
                     = 10 :: normalize (TaskManager.escapeHtml (d :: r'))).
        { rewrite escapeHtml_cons.
          destruct (escape_unit_cases d)
            as [[_ E]|[[_ E]|[[_ E]|[[_ E]|(?&?&?&?&E)]]]]; rewrite E;
            try reflexivity.
          cbn [app normalize]. change (13 =? 13) with true. cbn iota.
          destruct (N.eqb_spec d 10); [contradiction|]. reflexivity. }
        assert (Hr : normalize (13 :: d :: r') = 10 :: normalize (d :: r')).
        { cbn [normalize]. change (13 =? 13) with true. cbn iota.
          destruct (N.eqb_spec d 10); [contradiction|]. reflexivity. }
        rewrite Hl, Hr.
        rewrite (IH (length (d :: r')) ltac:(lia) (d :: r') eq_refl).
        reflexivity.
  - destruct (N.eq_dec c 0) as [->|H0].
    + change (TaskManager.escapeHtml (0 :: r)) with (0 :: TaskManager.escapeHtml r).
      change (normalize (0 :: TaskManager.escapeHtml r))
        with (normalize (TaskManager.escapeHtml r)).
      change (normalize (0 :: r)) with (normalize r).
      apply (IH (length r) ltac:(lia) r eq_refl).
    + rewrite escapeHtml_cons, normalize_escape_unit by assumption.
      rewrite normalize_cons by assumption. rewrite escapeHtml_cons.
      rewrite (IH (length r) ltac:(lia) r eq_refl). reflexivity.
Qed.

Lemma flush_text_app cur out more :
  flush_text cur (out ++ more) = flush_text cur out ++ more.
Proof. unfold flush_text. destruct (decode_text _); reflexivity. Qed.

(** The tokens already produced stay as they are. *)
Lemma scan_out s : forall mode cur out more,
  scan mode cur (out ++ more) s = push more (scan mode cur out s).
Proof.
  induction s as [|c r IH]; intros mode cur out more; [reflexivity|].
  cbn [scan]. destruct mode.
  - destruct ((c =? 60) && _).
    + rewrite flush_text_app. apply IH.
    + apply IH.
  - destruct (c =? 62).
    + apply (IH InText [] (Tag (rev cur) :: out) more).
    + apply IH.
Qed.

Lemma finish_push more state : finish (push more state) = rev more ++ finish state.
Proof.
  destruct state as [[[|] cur] out]; cbn [push finish].
  - rewrite flush_text_app. apply rev_app_distr.
  - apply rev_app_distr.
Qed.

(** Scanning a text in two parts, when the first does not end with [<]. *)
Lemma scan_app p : forall rest mode cur out,
  last p <> Some 60 ->
  scan mode cur out (p ++ rest) =
  let '(mode', cur', out') := scan mode cur out p in scan mode' cur' out' rest.
Proof.
  induction p as [|c p IH]; intros rest mode cur out Hlast.
  - reflexivity.
  - cbn [app scan]. destruct p as [|d p].
    + cbn [app]. assert (Hc : (c =? 60) = false).
      { apply N.eqb_neq. intros ->. apply Hlast. reflexivity. }
      rewrite Hc. cbn [andb]. destruct mode; [reflexivity|].
      destruct (c =? 62); reflexivity.
    + assert (Hlast' : last (d :: p) <> Some 60) by exact Hlast.
      cbn [app]. destruct mode.
      * destruct ((c =? 60) && is_tag_start d); apply (IH rest _ _ _ Hlast').
      * destruct (c =? 62); apply (IH rest _ _ _ Hlast').
Qed.

(** Text without [<] is taken as it is. *)
Lemma scan_text x : forall cur out rest,
  60 ∉ x -> scan InText cur out (x ++ rest) = scan InText (rev x ++ cur) out rest.
Proof.
  induction x as [|c x IH]; intros cur out rest Hx; [reflexivity|].
  apply not_elem_of_cons in Hx as [Hc Hx].
  cbn [app scan]. assert (E : (c =? 60) = false) by (apply N.eqb_neq; congruence).
  rewrite E. cbn [andb]. rewrite IH by exact Hx.
  cbn [rev]. rewrite <- app_assoc. reflexivity.
Qed.

Lemma tokenize_finish s : tokenize s = finish (scan InText [] [] s).
Proof. unfold tokenize, finish. destruct (scan _ _ _ _) as [[[|] cur] out]; reflexivity. Qed.

(** Escaped text between the end of a tag and the start of the next one is
    one text token, holding the text that was escaped. *)
Lemma tokenize_splice P t d Q out :
  scan InText [] [] P = (InText, [], out) ->
  last P <> Some 60 ->
  is_tag_start d = true ->
  tokenize (P ++ TaskManager.escapeHtml t ++ 60 :: d :: Q) =
  tokenize P ++ text_token t ++ tokenize (60 :: d :: Q).
Proof.
  intros HP Hlast Hd.
  rewrite !tokenize_finish.
  rewrite scan_app by exact Hlast. rewrite HP.
  rewrite scan_text by (intros Hin; apply escapeHtml_no_bracket in Hin as [H _]; congruence).
  rewrite app_nil_r.
  assert (Hstep : forall cur o,
    scan InText cur o (60 :: d :: Q) = scan InTag [] (flush_text cur o) (d :: Q)).
  { intros cur o. cbn [scan]. rewrite Hd. reflexivity. }
  rewrite !Hstep.
  rewrite <- (app_nil_l (flush_text (rev _) out)).
  rewrite scan_out, finish_push.
  change (flush_text [] []) with (@nil Token).
  change (finish (InText, [], out)) with (rev out).
  rewrite app_assoc. f_equal.
  unfold flush_text, text_token.
  rewrite rev_involutive, normalize_escapeHtml, decode_text_escapeHtml.
  destruct (normalize t); [symmetry; apply app_nil_r | reflexivity].
Qed.

Lemma tokenize_between P t R :
  (exists out, scan InText [] [] P = (InText, [], out)) ->
  last P <> Some 60 ->
  (exists d Q, R = 60 :: d :: Q /\ is_tag_start d = true) ->
  tokenize (P ++ TaskManager.escapeHtml t ++ R) =
  tokenize P ++ text_token t ++ tokenize R.
Proof.
  intros [out HP] Hlast (d & Q & -> & Hd).
  exact (tokenize_splice P t d Q out HP Hlast Hd).
Qed.

Lemma significant_app l1 l2 :
  significant (l1 ++ l2) = significant l1 ++ significant l2.
Proof. unfold significant. apply flat_map_app. Qed.

Lemma significant_text_token t :
  significant (text_token t) = visible (normalize t).
Proof.
  unfold text_token. destruct (normalize t) as [|c r]; [reflexivity|].
  cbn [significant flat_map]. apply app_nil_r.
Qed.

(** C8.  Whatever the title and the description of a task are, the markup
    [createTaskElement] builds for it reads as the tags of the template,
    always the same, with the title as one text inside the heading and the
    description, when there is one, as one text inside the paragraph: the
    two come out as text, letter for letter but for the line breaks the
    parser normalizes, and add no tag. *)
Theorem createTaskElement_text_is_literal (task : Task) :
  significant (tokenize (innerHTML (TaskManager.createTaskElement task))) =
  [ Tag (lit "label class=`task-checkbox`");
    Tag (lit "input type=`checkbox` "
         ++ (if completed task then lit "checked" else []));
    Tag (lit "span class=`custom-checkbox`");
    Tag (lit "i class=`fas fa-check`"); Tag (lit "/i");
    Tag (lit "/span"); Tag (lit "/label");
    Tag (lit "div class=`task-content`");
    Tag (lit "div class=`task-header`");
    Tag (lit "h3 class=`task-title`") ]
  ++ visible (normalize (title task))
  ++ [ Tag (lit "/h3");
       Tag (lit "div class=`task-actions`");
       Tag (lit "button class=`delete-btn` aria-label=`Delete task`");
       Tag (lit "i class=`fas fa-trash`"); Tag (lit "/i");
       Tag (lit "/button"); Tag (lit "/div"); Tag (lit "/div") ]
  ++ match description task with
     | [] => []
     | _ :: _ =>
         Tag (lit "p class=`task-description`")
         :: visible (normalize (description task)) ++ [Tag (lit "/p")]
     end
  ++ [ Tag (lit "/div") ].
Proof.
  destruct task as [i t d c ts].
  unfold TaskManager.createTaskElement.
  cbn [innerHTML completed title description].
  assert (Hclean : forall P out,
            scan InText [] [] P = (InText, [], out) ->
            exists out, scan InText [] [] P = (InText, [], out)) by eauto.
  assert (Hassoc : forall (a q r : Token) l,
            (a :: l ++ [q]) ++ [r] = a :: l ++ [q; r]).
  { intros. cbn [app]. rewrite <- app_assoc. reflexivity. }
  destruct c; destruct d as [|d0 d].
  - match goal with
    | |- context [tokenize (?A ++ ?B ++ ?C ++ ?X ++ ?R)] =>
        change (A ++ B ++ C ++ X ++ R) with ((A ++ B ++ C) ++ X ++ R)
    end.
    rewrite tokenize_between;
      [ | eapply Hclean; vm_compute; reflexivity
        | vm_compute; discriminate
        | eexists _, _; split; reflexivity ].
    rewrite !significant_app, significant_text_token. reflexivity.
  - rewrite <- !app_assoc.
    match goal with
    | |- context [tokenize (?A ++ ?B ++ ?C ++ ?X ++ ?R)] =>
        change (A ++ B ++ C ++ X ++ R) with ((A ++ B ++ C) ++ X ++ R)
    end.
    rewrite tokenize_between;
      [ | eapply Hclean; vm_compute; reflexivity
        | vm_compute; discriminate
        | eexists _, _; split; reflexivity ].
    match goal with
    | |- context [tokenize (?D ++ ?P ++ ?X ++ ?R)] =>
        change (D ++ P ++ X ++ R) with ((D ++ P) ++ X ++ R)
    end.
    rewrite tokenize_between;
      [ | eapply Hclean; vm_compute; reflexivity
        | vm_compute; discriminate
        | eexists _, _; split; reflexivity ].
    rewrite !significant_app, !significant_text_token.
    rewrite Hassoc. reflexivity.
  - match goal with
    | |- context [tokenize (?A ++ ?B ++ ?C ++ ?X ++ ?R)] =>
        change (A ++ B ++ C ++ X ++ R) with ((A ++ B ++ C) ++ X ++ R)
    end.
    rewrite tokenize_between;
      [ | eapply Hclean; vm_compute; reflexivity
        | vm_compute; discriminate
        | eexists _, _; split; reflexivity ].
    rewrite !significant_app, significant_text_token. reflexivity.
  - rewrite <- !app_assoc.
    match goal with
    | |- context [tokenize (?A ++ ?B ++ ?C ++ ?X ++ ?R)] =>
        change (A ++ B ++ C ++ X ++ R) with ((A ++ B ++ C) ++ X ++ R)
    end.
    rewrite tokenize_between;
      [ | eapply Hclean; vm_compute; reflexivity
        | vm_compute; discriminate
        | eexists _, _; split; reflexivity ].
    match goal with
    | |- context [tokenize (?D ++ ?P ++ ?X ++ ?R)] =>
        change (D ++ P ++ X ++ R) with ((D ++ P) ++ X ++ R)
    end.
    rewrite tokenize_between;
      [ | eapply Hclean; vm_compute; reflexivity
        | vm_compute; discriminate
        | eexists _, _; split; reflexivity ].
    rewrite !significant_app, !significant_text_token.
    rewrite Hassoc. reflexivity.
Qed.

(** The title with a script tag in it. *)
Example createTaskElement_script :
  visible (lit "<script>alert(1)</script>") = [Text (lit "<script>alert(1)</script>")] /\
  Text (lit "<script>alert(1)</script>")
  ∈ tokenize (innerHTML (TaskManager.createTaskElement
       {| id := lit "1000"; title := lit "<script>alert(1)</script>";
          description := []; completed := false; createdAt := DateObject 1000 |})).
Proof.
  split; [reflexivity|]. vm_compute.
  do 19 apply list_elem_of_further. apply list_elem_of_here.
Qed.

(** * Further properties *)

(** ** More on storage.js *)

Lemma storageKey_preferenceKey : TaskStorage.storageKey <> TaskStorage.preferenceKey.
Proof. vm_compute. discriminate. Qed.

Lemma getTasks_same_text ls ls' :
  getItem ls' TaskStorage.storageKey = getItem ls TaskStorage.storageKey ->
  TaskStorage.getTasks ls' = TaskStorage.getTasks ls.
Proof. unfold TaskStorage.getTasks. intros ->. reflexivity. Qed.

Lemma getPreferences_same_text ls ls' :
  getItem ls' TaskStorage.preferenceKey = getItem ls TaskStorage.preferenceKey ->
  TaskStorage.getPreferences ls' = TaskStorage.getPreferences ls.
Proof. unfold TaskStorage.getPreferences. intros ->. reflexivity. Qed.

Lemma saveTasks_other_key ls v ls' ok key :
  TaskStorage.saveTasks ls v = Ok (ls', ok) -> key <> TaskStorage.storageKey ->
  getItem ls' key = getItem ls key.
Proof.
  intros Hs Hne. apply saveTasks_result in Hs as [[_ Hset] | [_ ->]]; [|reflexivity].
  exact (getItem_setItem_other _ _ _ _ Hset key Hne).
Qed.

Lemma savePreferences_other_key ls v ls' ok key :
  TaskStorage.savePreferences ls v = Ok (ls', ok) -> key <> TaskStorage.preferenceKey ->
  getItem ls' key = getItem ls key.
Proof.
  intros Hs Hne. apply savePreferences_result in Hs as [[_ Hset] | [_ ->]]; [|reflexivity].
  exact (getItem_setItem_other _ _ _ _ Hset key Hne).
Qed.

Lemma updatePreference_other_key ls k v ls' ok key :
  TaskStorage.updatePreference ls k v = Ok (ls', ok) -> key <> TaskStorage.preferenceKey ->
  getItem ls' key = getItem ls key.
Proof.
  unfold TaskStorage.updatePreference. intros Hu Hne.
  destruct (TaskStorage.getPreferences ls) as [p|e]; cbn [mbind outcome_bind] in Hu;
    [|discriminate].
  destruct (assign p k v) as [p'|e]; cbn [mbind outcome_bind] in Hu; [|discriminate].
  exact (savePreferences_other_key _ _ _ _ _ Hu Hne).
Qed.

(** X1.  The two keys of the store are kept apart: whatever [saveTasks]
    writes, [getPreferences] returns what it returned before, and whatever
    [savePreferences] or [updatePreference] writes, [getTasks] returns what
    it returned before. *)
Theorem tasks_and_preferences_apart (ls ls' : Storage) (ok : bool) :
  (forall tasks,
     TaskStorage.saveTasks ls tasks = Ok (ls', ok) ->
     TaskStorage.getPreferences ls' = TaskStorage.getPreferences ls) /\
  (forall preferences,
     TaskStorage.savePreferences ls preferences = Ok (ls', ok) ->
     TaskStorage.getTasks ls' = TaskStorage.getTasks ls) /\
  (forall key v,
     TaskStorage.updatePreference ls key v = Ok (ls', ok) ->
     TaskStorage.getTasks ls' = TaskStorage.getTasks ls).
Proof.
  split; [|split].
  - intros tasks Hs. apply getPreferences_same_text.
    eapply saveTasks_other_key; [exact Hs|].
    intros H. symmetry in H. exact (storageKey_preferenceKey H).
  - intros preferences Hs. apply getTasks_same_text.
    eapply savePreferences_other_key; [exact Hs|]. exact storageKey_preferenceKey.
  - intros key v Hs. apply getTasks_same_text.
    eapply updatePreference_other_key; [exact Hs|]. exact storageKey_preferenceKey.
Qed.

Lemma tasks_and_preferences_apart_witness :
  let ls :=
    {| items := {[ TaskStorage.storageKey := lit "[]";
                   TaskStorage.preferenceKey := lit "{`darkMode`:false}" ]};
       quota := 5000000 |} in
  let ls1 :=
    match TaskStorage.saveTasks ls (VArr [VStr (lit "x")]) with
    | Ok (ls', _) => ls'
    | Throw _ => ls
    end in
  let ls2 :=
    match TaskStorage.updatePreference ls (lit "darkMode") (VBool true) with
    | Ok (ls', _) => ls'
    | Throw _ => ls
    end in
  TaskStorage.getPreferences ls1 = TaskStorage.getPreferences ls /\
  TaskStorage.getTasks ls2 = TaskStorage.getTasks ls.
Proof.
  intros ls ls1 ls2. split.
  - apply (proj1 (tasks_and_preferences_apart ls ls1 true) (VArr [VStr (lit "x")])).
    vm_compute. reflexivity.
  - apply (proj2 (proj2 (tasks_and_preferences_apart ls ls2 true))
             (lit "darkMode") (VBool true)).
    vm_compute. reflexivity.
Defined.

(** X2.  [savePreferences] never throws.  When it returns [true],
    [getPreferences] on the store it leaves returns the record that was
    saved, for a record of exact values; when it returns [false] the store
    is the one it was given. *)
Theorem savePreferences_getPreferences (ls : Storage) (preferences : value) :
  exists ls' ok,
    TaskStorage.savePreferences ls preferences = Ok (ls', ok) /\
    (ok = true -> JSON.exact preferences = true ->
     TaskStorage.getPreferences ls' = Ok preferences) /\
    (ok = false -> ls' = ls).
Proof.
  destruct (TaskStorage.savePreferences ls preferences) as [[ls' ok]|e] eqn:Hs.
  - exists ls', ok. split; [reflexivity|].
    apply savePreferences_result in Hs as [[-> Hset] | [-> ->]].
    + split; [|discriminate]. intros _ Hex.
      destruct (stored_exact_parses _ _ _ _ Hex Hset) as [Ht Hp].
      unfold TaskStorage.getPreferences, try_catch. rewrite Ht, Hp. reflexivity.
    + split; [discriminate|reflexivity].
  - exfalso. revert Hs.
    unfold TaskStorage.savePreferences, try_catch, mbind, outcome_bind.
    destruct (setItem ls _ _); discriminate.
Qed.

Lemma savePreferences_getPreferences_witness :
  let preferences :=
    VObj [(lit "darkMode", VBool false); (lit "accentColor", VStr (lit "mint"));
          (lit "hideCompleted", VBool true)] in
  exists ls',
    TaskStorage.savePreferences empty_store preferences = Ok (ls', true) /\
    TaskStorage.getPreferences ls' = Ok preferences.
Proof.
  intros preferences.
  destruct (savePreferences_getPreferences empty_store preferences)
    as (ls' & ok & Hs & Htrue & _).
  assert (Hok : ok = true).
  { revert Hs. vm_compute. intros H. inversion H. reflexivity. }
  subst ok. exists ls'. split; [exact Hs|]. apply Htrue; reflexivity.
Defined.

(** The preferences after a successful update of an exact record. *)
Lemma updatePreference_stored ls ls' preferences key v :
  TaskStorage.getPreferences ls = Ok (VObj preferences) ->
  JSON.exact (VObj preferences) = true ->
  JSON.exact v = true ->
  key <> lit "__proto__" ->
  TaskStorage.updatePreference ls key v = Ok (ls', true) ->
  TaskStorage.getPreferences ls' = Ok (VObj (define_own preferences key v)).
Proof.
  intros Hget Hexp Hexv Hkey Hupd.
  unfold TaskStorage.updatePreference in Hupd. rewrite Hget in Hupd.
  cbn [mbind outcome_bind] in Hupd. rewrite assign_object in Hupd by exact Hkey.
  apply savePreferences_result in Hupd as [[_ Hset] | [Hfalse _]]; [|discriminate].
  pose proof (exact_define_own preferences key v Hexp Hexv) as Hex'.
  destruct (stored_exact_parses _ _ _ _ Hex' Hset) as [Ht Hp].
  unfold TaskStorage.getPreferences, try_catch. rewrite Ht, Hp. reflexivity.
Qed.





(** ** More on the controller *)

(** What [saveTasks] of the controller leaves in the store: the current
    list, as it reads back, or, when the write failed, what was there. *)
Lemma TaskManager_saveTasks_store st st' :
  TaskManager.saveTasks st = Ok st' ->
  exists ls',
    st' = with_localStorage st ls' /\
    (TaskStorage.getTasks ls' = Ok (value_of_tasks (map revived (tasks st)))
     \/ ls' = localStorage st).
Proof.
  unfold TaskManager.saveTasks.
  destruct (TaskStorage.saveTasks _ _) as [[ls' ok]|e] eqn:Hs;
    cbn [mbind outcome_bind fst]; intros H; inversion H; subst st'; clear H.
  exists ls'. split; [reflexivity|].
  apply saveTasks_result in Hs as [[_ Hset] | [_ ->]]; [left|right; reflexivity].
  rewrite <- stringify_revived in Hset.
  destruct (stored_exact_parses _ _ _ _ (exact_revived (tasks st)) Hset) as [Ht Hp].
  unfold TaskStorage.getTasks. rewrite Ht. exact Hp.
Qed.

Lemma toggled_toggled task : TaskManager.toggled (TaskManager.toggled task) = task.
Proof. destruct task as [i t d c ts]. unfold TaskManager.toggled. cbn. rewrite negb_involutive. reflexivity. Qed.

(** What [toggleTaskCompletion] does when it finds the id. *)
Lemma toggleTaskCompletion_found st taskId i task :
  list_find (fun task => id task = taskId) (tasks st) = Some (i, task) ->
  exists ls',
    TaskManager.toggleTaskCompletion st taskId =
    Ok (TaskManager.showNotification
          (setTimeout
             (with_localStorage
                (with_tasks st (<[i := TaskManager.toggled task]> (tasks st))) ls')
             RenderTasks 500)
          (lit "Task marked as "
           ++ (if completed (TaskManager.toggled task) then lit "completed"
               else lit "active") ++ lit "!")).
Proof.
  intros Hfind. unfold TaskManager.toggleTaskCompletion. rewrite Hfind.
  destruct (TaskManager_saveTasks_ok
              (with_tasks st (<[i := TaskManager.toggled task]> (tasks st)))) as [ls' Hs].
  rewrite Hs. cbn [mbind outcome_bind]. exists ls'. reflexivity.
Qed.

Lemma list_find_first_match (l1 : list Task) task l2 taskId :
  id task = taskId -> taskId ∉ map id l1 ->
  list_find (fun task => id task = taskId) (l1 ++ task :: l2) = Some (length l1, task).
Proof.
  intros Hid Hnin. apply list_find_Some. split; [|split].
  - rewrite lookup_app_r by lia. rewrite Nat.sub_diag. reflexivity.
  - exact Hid.
  - intros j y Hj Hlt Hy. apply Hnin.
    rewrite lookup_app_l in Hj by exact Hlt.
    apply list_elem_of_fmap. exists y. split; [symmetry; exact Hy|].
    eapply list_elem_of_lookup_2. exact Hj.
Qed.

(** X5.  [toggleTaskCompletion] flips the first task of the list that has
    the id and no other: the tasks before and after it, also one further
    down with the same id, stay as they are.  It leaves the rendered items
    alone, sets a timer of 500 ms for [renderTasks] and one of 3000 ms for
    hiding the notification, and shows the new status.  For an id that no
    task has it returns the state as it is. *)
Theorem toggleTaskCompletion_first_match (st : State) (taskId : jsstring) :
  (taskId ∉ map id (tasks st) ->
   TaskManager.toggleTaskCompletion st taskId = Ok st) /\
  (forall l1 task l2,
     tasks st = l1 ++ task :: l2 -> id task = taskId -> taskId ∉ map id l1 ->
     exists st',
       TaskManager.toggleTaskCompletion st taskId = Ok st' /\
       tasks st' = l1 ++ TaskManager.toggled task :: l2 /\
       taskList st' = taskList st /\
       timers st' = timers st ++ [(500, RenderTasks); (3000, HideNotification)] /\
       notification_show st' = true /\
       notificationText st' =
         lit "Task marked as "
         ++ (if completed task then lit "active" else lit "completed") ++ lit "!").
Proof.
  split.
  - intros Habsent. unfold TaskManager.toggleTaskCompletion.
    assert (Hnone : list_find (fun task => id task = taskId) (tasks st) = None).
    { apply list_find_None. apply Forall_forall. intros task Hin Hid.
      apply Habsent. apply list_elem_of_fmap. exists task. split; [symmetry; exact Hid|exact Hin]. }
    rewrite Hnone. reflexivity.
  - intros l1 task l2 Htasks Hid Hnin.
    pose proof (list_find_first_match l1 task l2 taskId Hid Hnin) as Hfind.
    rewrite <- Htasks in Hfind.
    destruct (toggleTaskCompletion_found st taskId _ _ Hfind) as [ls' Ht].
    eexists. split; [exact Ht|].
    cbn [tasks taskList timers notification_show notificationText
         TaskManager.showNotification setTimeout with_timers with_notification
         with_localStorage with_tasks].
    split; [|split; [reflexivity|split; [|split; [reflexivity|]]]].
    + rewrite Htasks. rewrite insert_app_r_alt by lia.
      rewrite Nat.sub_diag. reflexivity.
    + rewrite <- app_assoc. reflexivity.
    + destruct task as [i t d c ts]. destruct c; reflexivity.
Qed.

Lemma toggleTaskCompletion_first_match_witness :
  let A := {| id := lit "7"; title := lit "A"; description := [];
              completed := false; createdAt := DateObject 7 |} in
  let B := {| id := lit "5"; title := lit "B"; description := [];
              completed := false; createdAt := DateObject 5 |} in
  let B' := {| id := lit "5"; title := lit "B again"; description := [];
               completed := false; createdAt := DateObject 5 |} in
  let st := with_tasks (blank_page empty_store) [A; B; B'] in
  TaskManager.toggleTaskCompletion st (lit "6") = Ok st /\
  exists st',
    TaskManager.toggleTaskCompletion st (lit "5") = Ok st' /\
    tasks st' = [A; TaskManager.toggled B; B'].
Proof.
  intros A B B' st. split.
  - apply (proj1 (toggleTaskCompletion_first_match st (lit "6"))).
    apply (bool_decide_unpack _). vm_compute. exact I.
  - destruct (proj2 (toggleTaskCompletion_first_match st (lit "5")) [A] B [B'])
      as (st' & Ht & Htasks & _).
    + reflexivity.
    + reflexivity.
    + apply (bool_decide_unpack _). vm_compute. exact I.
    + exists st'. split; [exact Ht|exact Htasks].
Defined.

(** X6.  Toggling the same id twice gives back the list of tasks that was
    there: both calls return, and the second undoes what the first did to
    the task. *)
Theorem toggleTaskCompletion_twice (st : State) (taskId : jsstring) :
  exists st1 st2,
    TaskManager.toggleTaskCompletion st taskId = Ok st1 /\
    TaskManager.toggleTaskCompletion st1 taskId = Ok st2 /\
    tasks st2 = tasks st.
Proof.
  destruct (list_find (fun task => id task = taskId) (tasks st)) as [[i task]|] eqn:Hfind.
  - destruct (toggleTaskCompletion_found st taskId i task Hfind) as [ls1 H1].
    eexists. 
    assert (Hfind1 : list_find (fun task => id task = taskId)
                       (<[i := TaskManager.toggled task]> (tasks st))
                     = Some (i, TaskManager.toggled task)).
    { apply list_find_Some in Hfind as (Hi & Hid & Hbefore).
      apply list_find_Some. split; [|split].
      - apply list_lookup_insert_eq. eapply lookup_lt_Some. exact Hi.
      - destruct task; exact Hid.
      - intros j y Hj Hlt. rewrite list_lookup_insert_ne in Hj by lia.
        exact (Hbefore j y Hj Hlt). }
    match type of H1 with _ = Ok ?s => set (st1 := s) in * end.
    destruct (toggleTaskCompletion_found st1 taskId i (TaskManager.toggled task) Hfind1)
      as [ls2 H2].
    eexists. split; [exact H1|]. split; [exact H2|].
    cbn [tasks TaskManager.showNotification setTimeout with_timers with_notification
         with_localStorage with_tasks st1].
    rewrite list_insert_insert_eq, toggled_toggled.
    apply list_insert_id. apply list_find_Some in Hfind as (Hi & _). exact Hi.
  - exists st, st. unfold TaskManager.toggleTaskCompletion. rewrite Hfind.
    repeat split; reflexivity.
Qed.

Lemma filter_id_absent taskId (l : list Task) :
  taskId ∉ map id (List.filter (fun task => negb (bool_decide (id task = taskId))) l).
Proof.
  intros Hin. apply list_elem_of_fmap in Hin as (task & Hid & Hin).
  apply list_elem_of_In, filter_In in Hin as [_ Hf].
  apply negb_true_iff, bool_decide_eq_false in Hf. congruence.
Qed.

Lemma filter_id_same taskId (l : list Task) :
  taskId ∉ map id l ->
  List.filter (fun task => negb (bool_decide (id task = taskId))) l = l.
Proof.
  induction l as [|task l IH]; intros Habsent; [reflexivity|].
  cbn [map] in Habsent. apply not_elem_of_cons in Habsent as [Hne Hl].
  cbn [List.filter]. rewrite bool_decide_eq_false_2 by congruence.
  cbn [negb]. rewrite (IH Hl). reflexivity.
Qed.

(** X7.  The removal that [deleteTask] schedules takes out every task that
    has the id, and a second removal of the same id (from a second click
    on the button before the first timer fired) changes nothing in the
    list: both callbacks return. *)
Theorem RemoveTask_twice (st : State) (taskId : jsstring) :
  exists st1 st2,
    TaskManager.run_callback st (RemoveTask taskId) = Ok st1 /\
    (taskId ∉ map id (tasks st1)) /\
    kept (fun task => id task <> taskId) (tasks st) (tasks st1) /\
    TaskManager.run_callback st1 (RemoveTask taskId) = Ok st2 /\
    tasks st2 = tasks st1.
Proof.
  destruct (run_callback_tasks st (RemoveTask taskId)) as (st1 & H1 & Ht1).
  destruct (run_callback_tasks st1 (RemoveTask taskId)) as (st2 & H2 & Ht2).
  exists st1, st2. split; [exact H1|]. split; [|split; [|split; [exact H2|]]].
  - rewrite Ht1. apply filter_id_absent.
  - rewrite Ht1. apply kept_filter. intros task.
    rewrite negb_true_iff, bool_decide_eq_false. reflexivity.
  - rewrite Ht2. apply filter_id_same. rewrite Ht1. apply filter_id_absent.
Qed.

(** X8.  Deleting a task that is on the page, from the click to the timer.
    For an id whose code units stand for themselves in the selector and
    that a rendered item carries, the click marks the first such item with
    the class [removing], shows [Task deleted!] and sets the timers, while
    the list of tasks and the store stay as they are; when the timer of
    300 ms fires, every task with that id is gone from the list, the others
    are there in their order, and no rendered item carries the id. *)
Theorem deleteTask_then_timer
    (st : State) (taskId : jsstring) (engine : Engine) (i : nat) (el : TaskElement) :
  forallb css_string_unit taskId = true ->
  list_find (matches taskId) (taskList st) = Some (i, el) ->
  let st1 := handle st (ClickDelete taskId engine) in
  let st2 := handle st1 (TimerFires (length (timers st))) in
  (tasks st1 = tasks st /\ localStorage st1 = localStorage st /\
   taskList st1 = <[i := classList_add (lit "removing") el]> (taskList st) /\
   timers st1 = timers st ++ [(300, RemoveTask taskId); (3000, HideNotification)] /\
   notificationText st1 = lit "Task deleted!" /\ notification_show st1 = true) /\
  (kept (fun task => id task <> taskId) (tasks st) (tasks st2) /\
   Forall (fun el => dataset_id el <> taskId) (taskList st2) /\
   timers st2 = timers st ++ [(3000, HideNotification)]).
Proof.
  intros Hplain Hfind st1 st2.
  assert (H1 : st1 =
    TaskManager.showNotification
      (setTimeout
         (with_taskList st
            (list_alter (classList_add (lit "removing")) i (taskList st))
            (emptyState_hidden st))
         (RemoveTask taskId) 300)
      (lit "Task deleted!")).
  { unfold st1. cbn [handle]. unfold TaskManager.deleteTask.
    rewrite querySelector_plain by exact Hplain. rewrite Hfind. reflexivity. }
  assert (Htasks1 : tasks st1 = tasks st) by (rewrite H1; reflexivity).
  assert (Htimers1 : timers st1 =
            timers st ++ [(300, RemoveTask taskId); (3000, HideNotification)]).
  { rewrite H1. cbn [timers TaskManager.showNotification setTimeout with_timers
                     with_notification with_taskList].
    rewrite <- app_assoc. reflexivity. }
  split.
  - split; [exact Htasks1|]. split; [rewrite H1; reflexivity|].
    split; [|split; [exact Htimers1|split; rewrite H1; reflexivity]].
    rewrite H1. cbn [taskList TaskManager.showNotification setTimeout with_timers
                     with_notification with_taskList].
    apply list_find_Some in Hfind as (Hi & _).
    change (list_alter (classList_add (lit "removing")) i (taskList st))
      with (alter (classList_add (lit "removing")) i (taskList st)).
    apply list_eq. intros j. destruct (decide (j = i)) as [->|Hne].
    + rewrite list_lookup_alter_eq, Hi.
      rewrite list_lookup_insert_eq by (eapply lookup_lt_Some; exact Hi). reflexivity.
    + rewrite list_lookup_alter_ne by congruence.
      rewrite list_lookup_insert_ne by congruence. reflexivity.
  - assert (Hlook : timers st1 !! length (timers st) = Some (300, RemoveTask taskId)).
    { rewrite Htimers1. rewrite lookup_app_r by lia. rewrite Nat.sub_diag. reflexivity. }
    assert (Hdel : delete (length (timers st)) (timers st1)
                   = timers st ++ [(3000, HideNotification)]).
    { rewrite Htimers1. apply delete_middle. }
    unfold st2. cbn [handle]. rewrite Hlook.
    set (st1' := with_timers st1 (delete (length (timers st)) (timers st1))).
    cbn [TaskManager.run_callback].
    set (st1'' := with_tasks st1' _).
    destruct (TaskManager_saveTasks_ok st1'') as [ls' Hs]. rewrite Hs.
    cbn [mbind outcome_bind settle].
    cbn [tasks taskList timers TaskManager.renderTasks with_taskList with_localStorage
         st1'' st1' with_tasks with_timers].
    rewrite Htasks1, Hdel. split; [|split; [|reflexivity]].
    + apply kept_filter. intros task.
      rewrite negb_true_iff, bool_decide_eq_false. reflexivity.
    + apply Forall_forall. intros e He Hid.
      apply list_elem_of_fmap in He as (task & -> & Hin).
      cbn [dataset_id TaskManager.createTaskElement] in Hid.
      assert (Hsub : forall s t, t ∈ TaskManager.filterTasks s -> t ∈ tasks s).
      { intros s t. unfold TaskManager.filterTasks.
        repeat destruct (decide _); try destruct (hideCompletedToggle_checked s);
          try (intros H; apply list_elem_of_In, filter_In in H as [H _];
               apply list_elem_of_In; exact H); auto. }
      apply Hsub in Hin. cbn [tasks with_localStorage with_tasks with_timers] in Hin.
      apply list_elem_of_In, filter_In in Hin as [_ Hf].
      apply negb_true_iff, bool_decide_eq_false in Hf. contradiction.
Qed.

Lemma deleteTask_then_timer_witness :
  let st :=
    run (blank_page empty_store)
      [Submit (lit "Buy milk") [] 1000 1000;
       Submit (lit "Call Bob") [] 1001 1001;
       TimerFires 0; TimerFires 0] in
  let st2 :=
    run st [ClickDelete (lit "1000") (Returns None); TimerFires 0] in
  map id (tasks st) = [lit "1001"; lit "1000"] /\
  kept (fun task => id task <> lit "1000") (tasks st) (tasks st2) /\
  Forall (fun el => dataset_id el <> lit "1000") (taskList st2).
Proof.
  intros st st2. split; [vm_compute; reflexivity|].
  destruct (fun el H =>
              deleteTask_then_timer st (lit "1000") (Returns None) 1 el eq_refl H)
    with (el := TaskManager.createTaskElement
                  {| id := lit "1000"; title := lit "Buy milk"; description := [];
                     completed := false; createdAt := DateObject 1000 |})
    as [_ (Hkept & Hnone & _)].
  - vm_compute. reflexivity.
  - split; [exact Hkept|exact Hnone].
Defined.

(** X9.  A pending timer is never cancelled.  When a notification is shown
    while the timer of an earlier one is still pending, that earlier timer
    hides the new notification when it fires; the later timer is left. *)
Theorem showNotification_earlier_timer (st : State) (message1 message2 : jsstring) :
  let st2 :=
    TaskManager.showNotification (TaskManager.showNotification st message1) message2 in
  let st3 := handle st2 (TimerFires (length (timers st))) in
  notificationText st2 = message2 /\ notification_show st2 = true /\
  timers st2 = timers st ++ [(3000, HideNotification); (3000, HideNotification)] /\
  notificationText st3 = message2 /\ notification_show st3 = false /\
  timers st3 = timers st ++ [(3000, HideNotification)].
Proof.
  intros st2 st3.
  assert (Htimers : timers st2 =
            timers st ++ [(3000, HideNotification); (3000, HideNotification)]).
  { unfold st2. cbn [timers TaskManager.showNotification setTimeout with_timers
                     with_notification].
    rewrite <- app_assoc. reflexivity. }
  split; [reflexivity|]. split; [reflexivity|]. split; [exact Htimers|].
  assert (Hlook : timers st2 !! length (timers st) = Some (3000, HideNotification)).
  { rewrite Htimers. rewrite lookup_app_r by lia. rewrite Nat.sub_diag. reflexivity. }
  assert (Hdel : delete (length (timers st)) (timers st2)
                 = timers st ++ [(3000, HideNotification)]).
  { rewrite Htimers. apply delete_middle. }
  unfold st3. cbn [handle]. rewrite Hlook.
  cbn [TaskManager.run_callback settle notificationText notification_show timers
       with_notification with_timers].
  rewrite Hdel. repeat split; reflexivity.
Qed.

(** X10.  Whatever happens to the page, the text stored under the tasks key
    is either left as it was, or it has become the current list: after any
    event, either [getItem] gives for the tasks key what it gave before, or
    [getTasks] returns the list of tasks of the page, with each [Date] as
    its ISO text.  A failed write never leaves a third thing. *)
Theorem handle_store (st : State) (e : Event) :
  getItem (localStorage (handle st e)) TaskStorage.storageKey
  = getItem (localStorage st) TaskStorage.storageKey
  \/ TaskStorage.getTasks (localStorage (handle st e))
     = Ok (value_of_tasks (map revived (tasks (handle st e)))).
Proof.
  assert (Hsave : forall s s',
            TaskManager.saveTasks s = Ok s' ->
            (localStorage s' = localStorage s /\ tasks s' = tasks s) \/
            (TaskStorage.getTasks (localStorage s')
             = Ok (value_of_tasks (map revived (tasks s'))))).
  { intros s s' Hs. apply TaskManager_saveTasks_store in Hs as (ls' & -> & [Hg| ->]).
    - right. exact Hg.
    - left. split; reflexivity. }
  destruct e as [title description now date | taskId | taskId engine | filter
                 | checked | n]; cbn [handle].
  - destruct (trim title) as [|c r]; [left; reflexivity|].
    unfold TaskManager.createTask.
    destruct (TaskManager.saveTasks _) as [s'|err] eqn:Hs;
      cbn [mbind outcome_bind settle]; [|left; reflexivity].
    apply Hsave in Hs as [[Hls _]|Hg].
    + left. cbn [localStorage TaskManager.showNotification setTimeout with_timers
                 with_notification TaskManager.renderTasks with_taskList].
      rewrite Hls. reflexivity.
    + right. exact Hg.
  - unfold TaskManager.toggleTaskCompletion.
    destruct (list_find _ _) as [[i task]|]; [|left; reflexivity].
    destruct (TaskManager.saveTasks _) as [s'|err] eqn:Hs;
      cbn [mbind outcome_bind settle]; [|left; reflexivity].
    apply Hsave in Hs as [[Hls _]|Hg].
    + left. cbn [localStorage TaskManager.showNotification setTimeout with_timers
                 with_notification].
      rewrite Hls. reflexivity.
    + right. exact Hg.
  - left. unfold TaskManager.deleteTask.
    destruct (querySelector _ _ _) as [[[i|]|]|err]; reflexivity.
  - left. reflexivity.
  - left. unfold TaskManager.hideCompletedChanged.
    destruct (TaskStorage.updatePreference _ _ _) as [[ls' ok]|err] eqn:Hu;
      cbn [mbind outcome_bind settle]; [|reflexivity].
    cbn [localStorage TaskManager.renderTasks with_taskList with_localStorage fst
         with_checked] in *.
    exact (updatePreference_other_key _ _ _ _ _ _ Hu storageKey_preferenceKey).
  - destruct (timers st !! n) as [[delay callback]|]; [|left; reflexivity].
    destruct callback as [taskId| |]; cbn [TaskManager.run_callback];
      [|left; reflexivity|left; reflexivity].
    destruct (TaskManager.saveTasks _) as [s'|err] eqn:Hs;
      cbn [mbind outcome_bind settle]; [|left; reflexivity].
    apply Hsave in Hs as [[Hls _]|Hg].
    + left. cbn [localStorage TaskManager.renderTasks with_taskList]. rewrite Hls.
      reflexivity.
    + right. exact Hg.
Qed.

(** ** What stays true of the page *)

Lemma filter_sublist {A : Type} (f : A -> bool) (l : list A) :
  List.filter f l `sublist_of` l.
Proof.
  induction l as [|x l IH]; cbn [List.filter]; [reflexivity|].
  destruct (f x); [apply sublist_skip|apply sublist_cons]; exact IH.
Qed.

Lemma filterTasks_sublist st : TaskManager.filterTasks st `sublist_of` tasks st.
Proof.
  unfold TaskManager.filterTasks.
  repeat destruct (decide _); try destruct (hideCompletedToggle_checked st);
    try apply filter_sublist; reflexivity.
Qed.

Lemma dataset_id_createTaskElement l :
  map dataset_id (map TaskManager.createTaskElement l) = map id l.
Proof. rewrite map_map. reflexivity. Qed.

Lemma dataset_id_alter i l :
  map dataset_id (list_alter (classList_add (lit "removing")) i l) = map dataset_id l.
Proof.
  revert i. induction l as [|el l IH]; intros [|i]; cbn [list_alter map]; try reflexivity.
  rewrite IH. reflexivity.
Qed.

(** Every event either renders the list anew from the tasks, or leaves the
    ids of the rendered items, the empty-state indicator and the ids of the
    tasks as they are. *)
Lemma handle_view st e :
  (taskList (handle st e)
   = map TaskManager.createTaskElement (TaskManager.filterTasks (handle st e)) /\
   emptyState_hidden (handle st e)
   = negb (length (TaskManager.filterTasks (handle st e)) =? 0)%nat)
  \/ (map dataset_id (taskList (handle st e)) = map dataset_id (taskList st) /\
      emptyState_hidden (handle st e) = emptyState_hidden st /\
      map id (tasks (handle st e)) = map id (tasks st)).
Proof.
  destruct e as [title description now date | taskId | taskId engine | filter
                 | checked | n]; cbn [handle].
  - destruct (trim title) as [|c r]; [right; repeat split; reflexivity|].
    unfold TaskManager.createTask.
    destruct (TaskManager_saveTasks_ok
                (with_tasks st ({| id := Number_toString now; title := trim title;
                                   description := trim description; completed := false;
                                   createdAt := DateObject date |} :: tasks st)))
      as [ls' Hs].
    rewrite Hs. cbn [mbind outcome_bind settle]. left. split; reflexivity.
  - right. unfold TaskManager.toggleTaskCompletion.
    destruct (list_find _ (tasks st)) as [[i task]|] eqn:Hfind;
      [|repeat split; reflexivity].
    destruct (TaskManager_saveTasks_ok
                (with_tasks st (<[i := TaskManager.toggled task]> (tasks st))))
      as [ls' Hs].
    rewrite Hs. cbn [mbind outcome_bind settle]. split; [reflexivity|].
    split; [reflexivity|].
    cbn [tasks TaskManager.showNotification setTimeout with_timers
         with_notification with_localStorage with_tasks].
    apply list_find_Some in Hfind as (Hi & _ & _).
    rewrite list_fmap_insert. apply list_insert_id.
    rewrite list_lookup_fmap, Hi. reflexivity.
  - right. unfold TaskManager.deleteTask.
    destruct (querySelector _ _ _) as [[[i|]|]|err];
      cbn [mbind outcome_bind settle]; try (repeat split; reflexivity).
    split; [|split; reflexivity].
    cbn [taskList TaskManager.showNotification setTimeout with_timers
         with_notification with_taskList].
    apply dataset_id_alter.
  - left. split; reflexivity.
  - unfold TaskManager.hideCompletedChanged.
    destruct (TaskStorage.updatePreference _ _ _) as [[ls' ok]|err];
      cbn [mbind outcome_bind settle].
    + left. split; reflexivity.
    + right. repeat split; reflexivity.
  - destruct (timers st !! n) as [[delay callback]|]; [|right; repeat split; reflexivity].
    destruct callback as [taskId| |]; cbn [TaskManager.run_callback].
    + destruct (TaskManager_saveTasks_ok
                  (with_tasks (with_timers st (delete n (timers st)))
                     (List.filter (fun task => negb (bool_decide (id task = taskId)))
                        (tasks (with_timers st (delete n (timers st)))))))
        as [ls' Hs].
      rewrite Hs. cbn [mbind outcome_bind settle]. left. split; reflexivity.
    + cbn [settle]. left. split; reflexivity.
    + cbn [settle]. right. repeat split; reflexivity.
Qed.

(** X11.  The rendered items never show a task that is not in the list:
    if the ids of the rendered items, from top to bottom, are ids of tasks
    of the list in the order of the list, that is still so after any
    events. *)
Theorem rendered_items_are_tasks (st : State) (events : list Event) :
  map dataset_id (taskList st) `sublist_of` map id (tasks st) ->
  map dataset_id (taskList (run st events))
    `sublist_of` map id (tasks (run st events)).
Proof.
  revert st. induction events as [|e events IH]; intros st Hinv; [exact Hinv|].
  cbn [run fold_left]. apply IH.
  destruct (handle_view st e) as [[Hrender _] | (Hitems & _ & Hids)].
  - rewrite Hrender, dataset_id_createTaskElement.
    apply fmap_sublist, filterTasks_sublist.
  - rewrite Hitems, Hids. exact Hinv.
Qed.

Lemma rendered_items_are_tasks_witness :
  let st :=
    run (blank_page empty_store)
      [Submit (lit "Buy milk") [] 1000 1000;
       Submit (lit "Call Bob") [] 1001 1001;
       ClickCheckbox (lit "1000");
       ClickFilter (lit "active");
       ClickDelete (lit "1001") (Returns None);
       TimerFires 0] in
  map dataset_id (taskList st) `sublist_of` map id (tasks st).
Proof.
  intros st. apply rendered_items_are_tasks.
  vm_compute. constructor.
Defined.

(** X12.  The empty-state indicator goes with the rendered list: if it is
    hidden exactly when some item is rendered, that is still so after any
    events. *)
Theorem emptyState_follows_list (st : State) (events : list Event) :
  emptyState_hidden st = negb (length (taskList st) =? 0)%nat ->
  emptyState_hidden (run st events)
  = negb (length (taskList (run st events)) =? 0)%nat.
Proof.
  revert st. induction events as [|e events IH]; intros st Hinv; [exact Hinv|].
  cbn [run fold_left]. apply IH.
  destruct (handle_view st e) as [[Hrender Hhidden] | (Hitems & Hhidden & _)].
  - rewrite Hhidden, Hrender, length_map. reflexivity.
  - rewrite Hhidden, Hinv.
    rewrite <- (length_map dataset_id (taskList (handle st e))), Hitems, length_map.
    reflexivity.
Qed.

Lemma emptyState_follows_list_witness :
  let st :=
    run (blank_page empty_store)
      [Submit (lit "Buy milk") [] 1000 1000;
       ClickCheckbox (lit "1000");
       ClickFilter (lit "active")] in
  emptyState_hidden st = false /\ taskList st = [] /\ length (tasks st) = 1%nat.
Proof.
  intros st.
  pose proof (emptyState_follows_list (blank_page empty_store)
                [Submit (lit "Buy milk") [] 1000 1000;
                 ClickCheckbox (lit "1000");
                 ClickFilter (lit "active")] eq_refl) as H.
  split; [exact H|]. split; vm_compute; reflexivity.
Defined.

(** X13.  The tasks are listed newest first: starting from an empty list,
    after any events the ids of the list, from top to bottom, are texts of
    clock readings of submissions, in the reverse of the order in which the
    submissions came. *)
Theorem ids_newest_first (st : State) (events : list Event) :
  tasks st = [] ->
  map id (tasks (run st events))
    `sublist_of` map Number_toString (rev (readings events)).
Proof.
  intros Hempty.
  assert (Hgen : forall events st,
            map id (tasks (run st events))
              `sublist_of` map Number_toString (rev (readings events))
                           ++ map id (tasks st)).
  { clear. induction events as [|e events IH]; intros st; [reflexivity|].
    cbn [run fold_left]. etransitivity; [apply IH|].
    assert (Hcons : readings (e :: events) = readings [e] ++ readings events).
    { destruct e as [t d n dt| | | | |]; cbn [readings app]; try reflexivity.
      destruct (trim t); reflexivity. }
    destruct (handle_ids st e) as [(t & d & now & date & -> & Hne & Hids) | [Hr Hsub]].
    - rewrite Hids. cbn [readings]. destruct (trim t) as [|c r]; [congruence|].
      cbn [rev]. rewrite map_app. cbn [map]. rewrite <- app_assoc. reflexivity.
    - rewrite Hcons, Hr. cbn [app].
      apply sublist_app; [reflexivity|exact Hsub]. }
  specialize (Hgen events st). rewrite Hempty in Hgen. cbn [map] in Hgen.
  rewrite app_nil_r in Hgen. exact Hgen.
Qed.

Lemma ids_newest_first_witness :
  let events :=
    [Submit (lit "Buy milk") [] 1000 1000;
     Submit (lit "Call Bob") [] 1001 1001;
     Submit (lit "Pay rent") [] 1002 1002;
     ClickDelete (lit "1001") (Returns None);
     TimerFires 3] in
  map id (tasks (run (blank_page empty_store) events)) = [lit "1002"; lit "1000"] /\
  map id (tasks (run (blank_page empty_store) events))
    `sublist_of` map Number_toString (rev (readings events)).
Proof.
  intros events. split; [vm_compute; reflexivity|].
  apply ids_newest_first. reflexivity.
Defined.

(** X14.  The two filters divide the list: every task is shown under
    exactly one of [active] and [completed], so the two filtered lists
    together are a rearrangement of the list of tasks. *)
Theorem filterTasks_partition (st : State) :
  TaskManager.filterTasks (with_currentFilter st (lit "active"))
  ++ TaskManager.filterTasks (with_currentFilter st (lit "completed"))
  ≡ₚ tasks st.
Proof.
  unfold TaskManager.filterTasks. cbn [currentFilter with_currentFilter tasks].
  destruct (decide (lit "active" = lit "active")) as [_|Hn]; [|congruence].
  destruct (decide (lit "completed" = lit "active")) as [He|_];
    [vm_compute in He; discriminate|].
  destruct (decide (lit "completed" = lit "completed")) as [_|Hn]; [|congruence].
  induction (tasks st) as [|task l IH]; [reflexivity|].
  cbn [List.filter]. destruct (completed task); cbn [negb app].
  - rewrite <- Permutation_middle. constructor. exact IH.
  - constructor. exact IH.
Qed.

(** *** Trimmed titles *)

Lemma trimStart_idem s : trimStart (trimStart s) = trimStart s.
Proof.
  induction s as [|c r IH]; [reflexivity|]. cbn [trimStart].
  destruct (is_white_space c) eqn:Hc; [exact IH|]. cbn [trimStart]. rewrite Hc. reflexivity.
Qed.

Lemma trimStart_suffix s : exists w, s = w ++ trimStart s.
Proof.
  induction s as [|c r [w IH]]; [exists []; reflexivity|]. cbn [trimStart].
  destruct (is_white_space c); [|exists []; reflexivity].
  exists (c :: w). cbn [app]. rewrite <- IH. reflexivity.
Qed.

Lemma trimStart_head s c r : trimStart s = c :: r -> is_white_space c = false.
Proof.
  induction s as [|c' r' IH]; [discriminate|]. cbn [trimStart].
  destruct (is_white_space c') eqn:Hc; [exact IH|].
  intros H. inversion H; subst. exact Hc.
Qed.

Lemma trimEnd_idem s : trimEnd (trimEnd s) = trimEnd s.
Proof. unfold trimEnd. rewrite rev_involutive, trimStart_idem. reflexivity. Qed.

Lemma trimEnd_prefix s : exists w, s = trimEnd s ++ w.
Proof.
  unfold trimEnd. destruct (trimStart_suffix (rev s)) as [w Hw].
  exists (rev w). rewrite <- rev_app_distr, <- Hw, rev_involutive. reflexivity.
Qed.

Lemma trim_idem s : trim (trim s) = trim s.
Proof.
  unfold trim.
  assert (Hfix : trimStart (trimEnd (trimStart s)) = trimEnd (trimStart s)).
  { destruct (trimEnd (trimStart s)) as [|c r] eqn:He; [reflexivity|].
    destruct (trimEnd_prefix (trimStart s)) as [w Hw]. rewrite He in Hw.
    cbn [app] in Hw. apply trimStart_head in Hw.
    cbn [trimStart]. rewrite Hw. reflexivity. }
  rewrite Hfix. apply trimEnd_idem.
Qed.

(** A property of tasks that [createTask] establishes and toggling keeps
    holds of every task of the list after an event, if it held before. *)
Lemma handle_tasks_Forall (P : Task -> Prop) :
  (forall title description now date,
     trim title <> [] ->
     P {| id := Number_toString now; title := trim title;
          description := trim description; completed := false;
          createdAt := DateObject date |}) ->
  (forall task, P task -> P (TaskManager.toggled task)) ->
  forall st e, Forall P (tasks st) -> Forall P (tasks (handle st e)).
Proof.
  intros Hnew Htoggle st e Hall.
  destruct e as [title description now date | taskId | taskId engine | filter
                 | checked | n]; cbn [handle].
  - destruct (trim title) as [|c r] eqn:Htrim; [exact Hall|].
    destruct (createTask_ok st title description now date) as (st' & Hc & Ht).
    rewrite Hc. cbn [settle]. rewrite Ht. constructor; [|exact Hall].
    apply Hnew. rewrite Htrim. discriminate.
  - destruct (list_find (fun task => id task = taskId) (tasks st)) as [[i task]|] eqn:Hfind.
    + destruct (toggleTaskCompletion_found st taskId i task Hfind) as [ls' Ht].
      rewrite Ht. cbn [settle tasks TaskManager.showNotification setTimeout with_timers
                       with_notification with_localStorage with_tasks].
      apply list_find_Some in Hfind as (Hi & _ & _).
      apply Forall_insert; [exact Hall|]. apply Htoggle.
      rewrite Forall_forall in Hall. apply Hall.
      eapply list_elem_of_lookup_2. exact Hi.
    + unfold TaskManager.toggleTaskCompletion. rewrite Hfind. exact Hall.
  - destruct (TaskManager.deleteTask st taskId engine) as [st'|err] eqn:Hd;
      cbn [settle]; [|exact Hall].
    rewrite (deleteTask_tasks _ _ _ _ Hd). exact Hall.
  - exact Hall.
  - destruct (TaskManager.hideCompletedChanged st checked) as [st'|err] eqn:Hd;
      cbn [settle]; [|exact Hall].
    rewrite (hideCompletedChanged_tasks _ _ _ Hd). exact Hall.
  - destruct (timers st !! n) as [[delay callback]|]; [|exact Hall].
    destruct (run_callback_tasks (with_timers st (delete n (timers st))) callback)
      as (st' & Hc & Ht).
    rewrite Hc. cbn [settle]. rewrite Ht.
    destruct callback; try exact Hall.
    cbn [tasks with_timers]. rewrite Forall_forall in Hall |- *.
    intros task Hin. apply Hall.
    apply list_elem_of_In, filter_In in Hin as [Hin _]. apply list_elem_of_In. exact Hin.
Qed.

(** X15.  Titles and descriptions stay trimmed: if every task of the list
    has a title that is not empty and that [trim] leaves as it is, and a
    description that [trim] leaves as it is, then that is still so after
    any events: the form never lets a blank or padded title into the
    list, and toggling and deleting change no text. *)
Theorem titles_stay_trimmed (st : State) (events : list Event) :
  Forall (fun task => title task <> [] /\ trim (title task) = title task /\
                      trim (description task) = description task) (tasks st) ->
  Forall (fun task => title task <> [] /\ trim (title task) = title task /\
                      trim (description task) = description task)
         (tasks (run st events)).
Proof.
  revert st. induction events as [|e events IH]; intros st Hall; [exact Hall|].
  cbn [run fold_left]. apply IH. apply handle_tasks_Forall; [| |exact Hall].
  - intros t d now date Hne. cbn [title description].
    split; [exact Hne|]. split; apply trim_idem.
  - intros [i t d c ts] H. exact H.
Qed.

Lemma titles_stay_trimmed_witness :
  let st :=
    run (blank_page empty_store)
      [Submit (lit "  Buy milk ") (lit " two litres  ") 1000 1000;
       Submit (lit "   ") (lit "nothing") 1001 1001;
       ClickCheckbox (lit "1000")] in
  map title (tasks st) = [lit "Buy milk"] /\
  Forall (fun task => title task <> [] /\ trim (title task) = title task /\
                      trim (description task) = description task) (tasks st).
Proof.
  intros st. split; [vm_compute; reflexivity|].
  apply titles_stay_trimmed. constructor.
Defined.

(** ** Opening the page *)

Lemma task_of_value_revived task :
  task_of_value (value_of_task (revived task)) = Some (revived task).
Proof.
  destruct task as [i t d c [z|s]]; unfold value_of_task, revived, task_of_value;
    cbn [id title description completed createdAt value_of_timestamp];
    (destruct (decide _) as [_|Hn]; [reflexivity|congruence]).
Qed.

Lemma tasks_of_value_revived ts :
  tasks_of_value (value_of_tasks (map revived ts)) = Some (map revived ts).
Proof.
  unfold tasks_of_value, value_of_tasks.
  induction ts as [|task ts IH]; [reflexivity|].
  cbn [map mapM]. rewrite task_of_value_revived. cbn [mbind option_bind].
  rewrite IH. reflexivity.
Qed.

(** X16.  The constructor has no [try] either.  When the text stored under
    the tasks key does not parse, [new TaskManager()] throws [SyntaxError]
    out of [loadTasks]; and when the tasks load but the text stored under
    the preferences key is [null], it throws [TypeError] out of
    [loadPreferences], where it reads [hideCompleted].  Either way it ends
    before it renders or attaches a listener. *)
Theorem constructor_throws (page : State) :
  (forall text,
     getItem (localStorage page) TaskStorage.storageKey = Some text ->
     text <> [] -> JSON.parse text = None ->
     TaskManager.constructor page = Some (Throw SyntaxError)) /\
  (forall stored ts,
     TaskStorage.getTasks (localStorage page) = Ok stored ->
     tasks_of_value stored = Some ts ->
     getItem (localStorage page) TaskStorage.preferenceKey = Some (lit "null") ->
     TaskManager.constructor page = Some (Throw TypeError)).
Proof.
  split.
  - intros text Hget Hne Hparse.
    unfold TaskManager.constructor, TaskManager.loadTasks, TaskStorage.getTasks.
    cbn [localStorage with_currentFilter with_tasks]. rewrite Hget.
    destruct text as [|c r]; [congruence|]. cbn [truthy_text ToString].
    unfold JSON_parse. rewrite Hparse. reflexivity.
  - intros stored ts Hget Hts Hprefs.
    unfold TaskManager.constructor, TaskManager.loadTasks.
    cbn [localStorage with_currentFilter with_tasks]. rewrite Hget, Hts.
    cbn [fmap option_fmap option_map].
    unfold TaskManager.loadPreferences, TaskStorage.getPreferences.
    cbn [localStorage with_currentFilter with_tasks]. rewrite Hprefs. reflexivity.
Qed.

Lemma constructor_throws_witness :
  TaskManager.constructor
    (blank_page {| items := {[ TaskStorage.storageKey := lit "[{`id`:`17`,`title`:`Buy" ]};
                   quota := 5000000 |})
  = Some (Throw SyntaxError) /\
  TaskManager.constructor
    (blank_page {| items := {[ TaskStorage.preferenceKey := lit "null" ]};
                   quota := 5000000 |})
  = Some (Throw TypeError).
Proof.
  split.
  - apply (proj1 (constructor_throws _) (lit "[{`id`:`17`,`title`:`Buy")).
    + reflexivity.
    + discriminate.
    + vm_compute. reflexivity.
  - apply (proj2 (constructor_throws _) (VArr []) []).
    + reflexivity.
    + reflexivity.
    + reflexivity.
Defined.

(** X17.  Opening the page again brings back what was saved.  When
    [getTasks] returns the list as a successful [saveTasks] left it (each
    [Date] as its ISO text) and the stored preferences are an object whose
    [hideCompleted] is a boolean, the constructor returns with that list,
    with the toggle set to the stored boolean and no timer added; the
    filter is [active] when it is [true] and [all] otherwise, and the items
    rendered are those of the filtered list. *)
Theorem constructor_reload
    (page : State) (ts : list Task) (preferences : list (jsstring * value))
    (hideCompleted : bool) :
  TaskStorage.getTasks (localStorage page) = Ok (value_of_tasks (map revived ts)) ->
  TaskStorage.getPreferences (localStorage page) = Ok (VObj preferences) ->
  get_own preferences (lit "hideCompleted") = Some (VBool hideCompleted) ->
  exists st,
    TaskManager.constructor page = Some (Ok st) /\
    tasks st = map revived ts /\
    hideCompletedToggle_checked st = hideCompleted /\
    currentFilter st = (if hideCompleted then lit "active" else lit "all") /\
    taskList st =
      map TaskManager.createTaskElement
        (if hideCompleted
         then List.filter (fun task => negb (completed task)) (map revived ts)
         else map revived ts) /\
    emptyState_hidden st = negb (length (taskList st) =? 0)%nat /\
    timers st = timers page /\ localStorage st = localStorage page.
Proof.
  intros Htasks Hprefs Hhide.
  unfold TaskManager.constructor, TaskManager.loadTasks.
  cbn [localStorage with_currentFilter with_tasks].
  rewrite Htasks, tasks_of_value_revived. cbn [fmap option_fmap option_map].
  unfold TaskManager.loadPreferences. cbn [localStorage with_currentFilter with_tasks].
  rewrite Hprefs. cbn [mbind outcome_bind get_property]. rewrite Hhide.
  cbn [ToBoolean fmap option_fmap option_map].
  eexists. split; [reflexivity|].
  destruct hideCompleted.
  - repeat split; try reflexivity.
    cbn. rewrite length_map. reflexivity.
  - repeat split; try reflexivity.
    cbn. rewrite length_map. reflexivity.
Qed.

Lemma constructor_reload_witness :
  let before :=
    run (blank_page empty_store)
      [Submit (lit "Buy milk") [] 1000 1000;
       Submit (lit "Call Bob") [] 1001 1001;
       ClickCheckbox (lit "1000");
       ChangeHideCompleted true] in
  exists st,
    TaskManager.constructor (blank_page (localStorage before)) = Some (Ok st) /\
    tasks st = map revived (tasks before) /\
    currentFilter st = lit "active" /\
    map dataset_id (taskList st) = [lit "1001"].
Proof.
  intros before.
  destruct (constructor_reload (blank_page (localStorage before)) (tasks before)
              [(lit "darkMode", VBool true); (lit "accentColor", VStr (lit "lilac"));
               (lit "hideCompleted", VBool true)] true)
    as (st & Hc & Ht & _ & Hf & Hl & _).
  - vm_compute. reflexivity.
  - vm_compute. reflexivity.
  - reflexivity.
  - exists st. split; [exact Hc|]. split; [exact Ht|]. split; [exact Hf|].
    rewrite Hl. vm_compute. reflexivity.
Defined.

(** ** theme.js *)

(** [loadTheme] on stored preferences that hold a boolean and a string. *)
Lemma loadTheme_stored th ls preferences darkMode color :
  TaskStorage.getPreferences ls = Ok (VObj preferences) ->
  get_own preferences (lit "darkMode") = Some (VBool darkMode) ->
  get_own preferences (lit "accentColor") = Some (VStr color) ->
  ThemeManager.loadTheme th ls
  = Some (ThemeManager.setAccentColor (ThemeManager.setDarkMode th darkMode) ls color).
Proof.
  intros Hget Hdark Hcolor. unfold ThemeManager.loadTheme.
  rewrite Hget. cbn [get_property]. rewrite Hdark, Hcolor. reflexivity.
Qed.

Lemma updatePreference_object ls preferences key v :
  TaskStorage.getPreferences ls = Ok (VObj preferences) ->
  key <> lit "__proto__" ->
  TaskStorage.updatePreference ls key v
  = TaskStorage.savePreferences ls (VObj (define_own preferences key v)).
Proof.
  intros Hget Hkey. unfold TaskStorage.updatePreference. rewrite Hget.
  cbn [mbind outcome_bind]. rewrite assign_object by exact Hkey. reflexivity.
Qed.

Lemma define_own_same props k v :
  get_own props k = Some v -> define_own props k v = props.
Proof.
  induction props as [|[k' v'] props IH]; cbn [get_own define_own]; [discriminate|].
  destruct (decide (k' = k)) as [->|Hne].
  - intros H. inversion H. reflexivity.
  - intros H. rewrite (IH H). reflexivity.
Qed.

(** X18.  The theme that is chosen is the theme the page opens with next
    time.  With the stored preferences an object of exact values that holds
    a boolean [darkMode] and a string [accentColor]: after a
    [toggleDarkMode] whose write succeeded, [loadTheme] puts any page into
    the mode the toggle left, with the sun icon for dark and the moon for
    light; and after a [setAccentColor] whose write succeeded, [loadTheme]
    asks for that colour, marks as active exactly the swatches that carry
    it, and leaves the mode as stored. *)
Theorem theme_reload
    (th th0 : Theme) (ls ls' : Storage) (preferences : list (jsstring * value))
    (darkMode : bool) (accentColor : jsstring) :
  TaskStorage.getPreferences ls = Ok (VObj preferences) ->
  JSON.exact (VObj preferences) = true ->
  get_own preferences (lit "darkMode") = Some (VBool darkMode) ->
  get_own preferences (lit "accentColor") = Some (VStr accentColor) ->
  (TaskStorage.updatePreference ls (lit "darkMode") (VBool (negb (body_dark_mode th)))
   = Ok (ls', true) ->
   ThemeManager.toggleDarkMode th ls
   = (ThemeManager.setDarkMode th (negb (body_dark_mode th)), Ok ls') /\
   exists th1 result,
     ThemeManager.loadTheme th0 ls' = Some (th1, result) /\
     body_dark_mode th1 = negb (body_dark_mode th) /\
     themeToggleIcon_className th1
     = (if body_dark_mode th then lit "fas fa-moon" else lit "fas fa-sun") /\
     accent th1 = lit "var(--" ++ accentColor ++ lit ")") /\
  (forall color,
     TaskStorage.updatePreference ls (lit "accentColor") (VStr color) = Ok (ls', true) ->
     snd (ThemeManager.setAccentColor th ls color) = Ok ls' /\
     exists th1 result,
       ThemeManager.loadTheme th0 ls' = Some (th1, result) /\
       body_dark_mode th1 = darkMode /\
       accent th1 = lit "var(--" ++ color ++ lit ")" /\
       map dataset_color (colorSwatches th1) = map dataset_color (colorSwatches th0) /\
       Forall (fun swatch => swatch_active swatch = true <->
                             dataset_color swatch = Some color)
              (colorSwatches th1)).
Proof.
  intros Hget Hex Hdark Hcolor.
  assert (Hd : lit "darkMode" <> lit "__proto__") by (vm_compute; discriminate).
  assert (Ha : lit "accentColor" <> lit "__proto__") by (vm_compute; discriminate).
  assert (Hda : lit "accentColor" <> lit "darkMode") by (vm_compute; discriminate).
  split.
  - intros Hupd. split.
    { unfold ThemeManager.toggleDarkMode. rewrite Hupd. reflexivity. }
    pose proof (updatePreference_stored ls ls' preferences (lit "darkMode")
                  (VBool (negb (body_dark_mode th))) Hget Hex eq_refl Hd Hupd) as Hget'.
    eexists _, _. split.
    + apply (loadTheme_stored th0 ls' _ (negb (body_dark_mode th)) accentColor Hget').
      * apply get_own_define_own.
      * rewrite get_own_define_own_ne by exact Hda. exact Hcolor.
    + destruct (body_dark_mode th); repeat split; reflexivity.
  - intros color Hupd. split.
    { unfold ThemeManager.setAccentColor. cbn [snd]. rewrite Hupd. reflexivity. }
    pose proof (updatePreference_stored ls ls' preferences (lit "accentColor")
                  (VStr color) Hget Hex eq_refl Ha Hupd) as Hget'.
    eexists _, _. split.
    + apply (loadTheme_stored th0 ls' _ darkMode color Hget').
      * rewrite get_own_define_own_ne by congruence. exact Hdark.
      * apply get_own_define_own.
    + unfold ThemeManager.setAccentColor.
      cbn [fst body_dark_mode accent colorSwatches].
      split; [destruct darkMode; reflexivity|]. split; [reflexivity|].
      assert (Hsw : colorSwatches (ThemeManager.setDarkMode th0 darkMode)
                    = colorSwatches th0) by (destruct darkMode; reflexivity).
      rewrite Hsw. split.
      * rewrite map_map. reflexivity.
      * apply Forall_forall. intros swatch Hin.
        apply list_elem_of_fmap in Hin as (swatch0 & -> & _).
        cbn [swatch_active dataset_color]. apply bool_decide_eq_true.
Qed.

Lemma theme_reload_witness :
  let th :=
    {| body_dark_mode := true; themeToggleIcon_className := lit "fas fa-sun";
       accent := lit "var(--lilac)";
       colorSwatches :=
         [ {| dataset_color := Some (lit "lilac"); swatch_active := true |};
           {| dataset_color := Some (lit "mint"); swatch_active := false |} ] |} in
  let ls1 :=
    match ThemeManager.toggleDarkMode th empty_store with
    | (_, Ok ls') => ls'
    | _ => empty_store
    end in
  let ls2 :=
    match ThemeManager.setAccentColor th empty_store (lit "mint") with
    | (_, Ok ls') => ls'
    | _ => empty_store
    end in
  (exists th1 result,
     ThemeManager.loadTheme th ls1 = Some (th1, result) /\
     body_dark_mode th1 = false) /\
  (exists th1 result,
     ThemeManager.loadTheme th ls2 = Some (th1, result) /\
     map swatch_active (colorSwatches th1) = [false; true]).
Proof.
  intros th ls1 ls2.
  pose (preferences := [(lit "darkMode", VBool true); (lit "accentColor", VStr (lit "lilac"));
                        (lit "hideCompleted", VBool false)]).
  split.
  - destruct (proj1 (theme_reload th th empty_store ls1 preferences true (lit "lilac")
                       eq_refl eq_refl eq_refl eq_refl))
      as (_ & th1 & result & Hload & Hmode & _).
    + vm_compute. reflexivity.
    + exists th1, result. split; [exact Hload|exact Hmode].
  - destruct (proj2 (theme_reload th th empty_store ls2 preferences true (lit "lilac")
                       eq_refl eq_refl eq_refl eq_refl) (lit "mint"))
      as (_ & th1 & result & Hload & _).
    + vm_compute. reflexivity.
    + exists th1, result. split; [exact Hload|].
      revert Hload. vm_compute. intros H. inversion H. reflexivity.
Defined.

(** X19.  Loading the theme writes to the store.  [loadTheme] hands the
    stored colour to [setAccentColor], which saves it again: on a store
    with nothing under the preferences key the page goes dark with the
    accent [lilac], and the record of defaults is written under the key if
    there is room for it; if there is not, the store stays as it was and
    nothing is thrown. *)
Theorem loadTheme_writes_defaults (th : Theme) (ls : Storage) :
  getItem ls TaskStorage.preferenceKey = None ->
  exists th',
    ThemeManager.loadTheme th ls
    = Some (th',
            match setItem ls TaskStorage.preferenceKey
                    (lit "{`darkMode`:true,`accentColor`:`lilac`,`hideCompleted`:false}")
            with
            | Ok ls' => Ok ls'
            | Throw _ => Ok ls
            end) /\
    body_dark_mode th' = true /\
    themeToggleIcon_className th' = lit "fas fa-sun" /\
    accent th' = lit "var(--lilac)".
Proof.
  intros Hnone.
  assert (Hget : TaskStorage.getPreferences ls
                 = Ok (VObj [(lit "darkMode", VBool true);
                             (lit "accentColor", VStr (lit "lilac"));
                             (lit "hideCompleted", VBool false)])).
  { unfold TaskStorage.getPreferences. rewrite Hnone. reflexivity. }
  rewrite (loadTheme_stored th ls _ true (lit "lilac") Hget eq_refl eq_refl).
  unfold ThemeManager.setAccentColor.
  rewrite (updatePreference_object ls _ (lit "accentColor") (VStr (lit "lilac")) Hget)
    by (vm_compute; discriminate).
  rewrite define_own_same by reflexivity.
  unfold TaskStorage.savePreferences, try_catch.
  change (ToString (JSON.stringify
            (VObj [(lit "darkMode", VBool true); (lit "accentColor", VStr (lit "lilac"));
                   (lit "hideCompleted", VBool false)])))
    with (lit "{`darkMode`:true,`accentColor`:`lilac`,`hideCompleted`:false}").
  eexists. split.
  - f_equal. f_equal.
    destruct (setItem ls TaskStorage.preferenceKey _) as [ls'|err]; reflexivity.
  - repeat split; reflexivity.
Qed.

Lemma loadTheme_writes_defaults_witness :
  let th :=
    {| body_dark_mode := false; themeToggleIcon_className := lit "fas fa-moon";
       accent := []; colorSwatches := [] |} in
  exists th' ls',
    ThemeManager.loadTheme th empty_store = Some (th', Ok ls') /\
    getItem ls' TaskStorage.preferenceKey
    = Some (lit "{`darkMode`:true,`accentColor`:`lilac`,`hideCompleted`:false}") /\
    body_dark_mode th' = true.
Proof.
  intros th.
  destruct (loadTheme_writes_defaults th empty_store eq_refl) as (th' & Hload & Hdark & _).
  exists th'. eexists. split; [exact Hload|]. split; [|exact Hdark].
  vm_compute. reflexivity.
Defined.
